(** * AioHTTPTransport: the aiohttp-backed transport of httpx

    A shallow embedding of [httpx/_transports/aiohttp.py]: the connector
    configuration done by [AioHTTPTransport.__init__], the lazily created
    session, [handle_async_request], [AsyncResponseStream.__aiter__] and
    [aclose].

    The engine (aiohttp) is an external collaborator.  Every constructor
    call and every method call that the transport makes on an engine object
    is appended to an event log.  Where the engine settles what the
    transport does next it is modelled as aiohttp behaves: the connector
    and stream-reader constructors refuse arguments that do not fit their
    parameters, and a session whose connector has been closed refuses
    requests.  What the engine answers to a request it accepts is given by
    an oracle. *)

From Stdlib Require Import ZArith QArith Ascii String.
From stdpp Require Import gmap strings list fin_maps.

Local Open Scope string_scope.
Local Open Scope list_scope.

(** ** Python values that occur in the transport *)

(** [bytes] and [str] are both carried by [string]; a [str] is ASCII when
    every one of its characters is below 128. *)
Definition bytes := string.

Definition is_ascii_char (c : ascii) : bool := (nat_of_ascii c <? 128)%nat.

Fixpoint is_ascii (s : string) : bool :=
  match s with
  | EmptyString => true
  | String c r => is_ascii_char c && is_ascii r
  end.

(** [s.encode("ascii")] and [b.decode("ascii")]: the same characters, or a
    [UnicodeError] when one of them is outside ASCII. *)
Definition encode_ascii (s : string) : option bytes :=
  if is_ascii s then Some s else None.

Definition decode_ascii (b : bytes) : option string :=
  if is_ascii b then Some b else None.

(** *** [repr] of a [str], used by the [!r] conversion of an f-string *)

Definition hex_digit (n : nat) : ascii :=
  ascii_of_nat (if (n <? 10)%nat then 48 + n else 87 + n).

Fixpoint contains_char (c : ascii) (s : string) : bool :=
  match s with
  | EmptyString => false
  | String d r => if Ascii.eqb c d then true else contains_char c r
  end.

Definition single_quote : ascii := ascii_of_nat 39.
Definition double_quote : ascii := ascii_of_nat 34.
Definition backslash : ascii := ascii_of_nat 92.

(** Python uses the single quote unless the text holds a single quote and
    no double quote. *)
Definition repr_quote (s : string) : ascii :=
  if contains_char single_quote s && negb (contains_char double_quote s)
  then double_quote else single_quote.

Definition repr_char (q c : ascii) : string :=
  let n := nat_of_ascii c in
  if Ascii.eqb c backslash then String backslash (String backslash "")
  else if Ascii.eqb c q then String backslash (String q "")
  else if (n =? 9)%nat then String backslash "t"
  else if (n =? 10)%nat then String backslash "n"
  else if (n =? 13)%nat then String backslash "r"
  else if (n <? 32)%nat || (n =? 127)%nat
       then String backslash
              (String "x" (String (hex_digit (n / 16)) (String (hex_digit (n mod 16)) "")))
  else String c "".

Fixpoint repr_body (q : ascii) (s : string) : string :=
  match s with
  | EmptyString => ""
  | String c r => repr_char q c +:+ repr_body q r
  end.

Definition py_repr (s : string) : string :=
  let q := repr_quote s in
  String q (repr_body q s +:+ String q "").

(** Characters that [repr] leaves alone whatever the quote: printable
    ASCII other than the two quotes and the backslash.  Every character of
    a URL scheme is of this kind. *)
Definition plain_char (c : ascii) : bool :=
  let n := nat_of_ascii c in
  (32 <=? n)%nat && (n <? 127)%nat
  && negb (Ascii.eqb c single_quote) && negb (Ascii.eqb c double_quote)
  && negb (Ascii.eqb c backslash).

Fixpoint plain (s : string) : bool :=
  match s with
  | EmptyString => true
  | String c r => plain_char c && plain r
  end.

(** *** Dictionaries built from a sequence of pairs

    [dict(pairs)]: a later pair with a key already present replaces the
    value and keeps the position of the first one. *)
Module PyDict.

Definition t := list (string * string).

Fixpoint set (k v : string) (d : t) : t :=
  match d with
  | [] => [(k, v)]
  | (k', v') :: r =>
      if String.eqb k k' then (k, v) :: r else (k', v') :: set k v r
  end.

Definition add (d : t) (kv : string * string) : t := set (fst kv) (snd kv) d.

Definition of_pairs (ps : list (string * string)) : t := fold_left add ps [].

Fixpoint get (k : string) (d : t) : option string :=
  match d with
  | [] => None
  | (k', v) :: r => if String.eqb k k' then Some v else get k r
  end.

Definition keys (d : t) : list string := map fst d.

End PyDict.

(** *** The values a keyword dictionary of the engine may hold *)

(** A TLS context is an opaque handle made by [create_ssl_context]. *)
Record SSLContext := { ssl_handle : nat }.

Inductive PyValue :=
| PyNone
| PyBool (b : bool)
| PyInt (n : Z)
| PyFloat (q : Q)
| PyStr (s : string)
| PyDictV (d : PyDict.t)
| PySSL (c : SSLContext).

Definition py_opt_int (o : option Z) : PyValue :=
  match o with Some n => PyInt n | None => PyNone end.

Definition py_opt_float (o : option Q) : PyValue :=
  match o with Some q => PyFloat q | None => PyNone end.

(** ** The caller's configuration types ([httpx._config], [httpx._urls]) *)

(** Of a [URL] the transport reads [.scheme] and takes [str()]. *)
Record URL := { url_scheme : string; url_str : string }.

(** [Headers]: the ordered (name, value) pairs; names may repeat. *)
Definition Headers := list (string * string).

(** Truth value of a container: it is not empty. *)
Definition headers_bool (h : Headers) : bool :=
  match h with [] => false | _ => true end.

Record Proxy := { proxy_url : URL; proxy_headers : Headers }.

Record Limits := {
  max_connections : option Z;
  max_keepalive_connections : option Z;
  keepalive_expiry : option Q
}.

Inductive Verify :=
| VerifyBool (b : bool)
| VerifyPath (p : string)
| VerifyContext (c : SSLContext).

Inductive ProxyArg :=
| ProxyStr (s : string)
| ProxyURL (u : URL)
| ProxyObj (p : Proxy).

(** The named parameters of [AioHTTPTransport.__init__]. *)
Record TransportConfig := {
  verify : Verify;
  cert : option string;
  trust_env : bool;
  http1 : bool;
  http2 : bool;
  limits : Limits;
  proxy : option ProxyArg;
  socket_options : option string
}.

(** What [__init__] uses of the rest of httpx, none of it under this
    module: the TLS-context factory, the [Proxy] constructor applied to a
    [str] or a [URL], the default limits, and [Headers.items()].  The
    factory is taken on the path where it returns.  [Proxy_of_url a] is the
    descriptor [Proxy(url=a)] builds, and [Proxy_refuses a] is the text of
    the [ValueError] the constructor raises instead when it does not accept
    the URL. *)
Class Httpx := {
  create_ssl_context : Verify -> option string -> bool -> SSLContext;
  Proxy_of_url : string + URL -> Proxy;
  Proxy_refuses : string + URL -> option string;
  DEFAULT_LIMITS : Limits;
  headers_items : Headers -> list (string * string)
}.

(** ** The engine's objects, as the transport sees them *)

Record ClientTimeout := {
  total : option Q;
  connect : option Q;
  sock_connect : option Q;
  sock_read : option Q
}.

Inductive ConnectorClass := TCPConnector | HTTP2ClientConnector.

(** A connector remembers the class and the keyword arguments it was built
    from; [conn_has_close] is [hasattr(connector, "close")]. *)
Record Connector := {
  conn_id : nat;
  conn_class : ConnectorClass;
  conn_kwargs : gmap string PyValue;
  conn_has_close : bool
}.

Record SessionKwargs := {
  sk_connector : Connector;
  sk_timeout : ClientTimeout;
  sk_auto_decompress : bool;
  sk_trust_env : bool
}.

Record Session := { session_id : nat; session_kwargs : SessionKwargs }.

(** [aiohttp.StreamReader()] after [feed_data] calls and maybe [feed_eof]. *)
Record StreamReader := { fed : list bytes; eof : bool }.

(** The keyword arguments of [session.request]. *)
Record EngineCall := {
  call_method : string;
  call_url : string;
  call_headers : PyDict.t;
  call_data : option StreamReader;
  call_allow_redirects : bool
}.

(** An exception raised by the engine: the names of the classes it is an
    instance of (its method resolution order) and its [str()]. *)
Record EngineExc := { exc_mro : list string; exc_str : string }.

Definition isinstance (e : EngineExc) (cls : string) : bool :=
  existsb (String.eqb cls) (exc_mro e).

(** What one [await content.read(65536)] gives. *)
Inductive ReadOutcome :=
| ReadChunk (b : bytes)
| ReadRaises (e : EngineExc).

(** The engine's response: [content] is the script of the reads still to
    come; once it is used up a read returns the empty chunk. *)
Record ClientResponse := {
  status : Z;
  response_headers : list (string * string);
  content : list ReadOutcome
}.

Inductive EngineOutcome :=
| Responds (r : ClientResponse)
| Fails (e : EngineExc).

(** What the transport did to the engine, oldest first. *)
Inductive Event :=
| EvImport (module_name : string)
| EvConnectorNew (c : Connector)
| EvSessionNew (s : Session)
| EvRequest (s : Session) (call : EngineCall)
| EvRelease (s : Session)
| EvSessionClose (s : Session)
| EvConnectorClose (c : Connector).

Definition World := list Event.

(** Closing a connector, and closing a session, which closes the connector
    the session was given; connectors are told apart by their number. *)
Definition closes (c : Connector) (ev : Event) : bool :=
  match ev with
  | EvSessionClose s =>
      Nat.eqb (conn_id (sk_connector (session_kwargs s))) (conn_id c)
  | EvConnectorClose c' => Nat.eqb (conn_id c') (conn_id c)
  | _ => false
  end.

Definition connector_closed (w : World) (c : Connector) : bool :=
  existsb (closes c) w.

(** [session.closed]: a session is closed once its connector is. *)
Definition session_closed (w : World) (s : Session) : bool :=
  connector_closed w (sk_connector (session_kwargs s)).

(** What a closed session raises when a request is made through it. *)
Definition session_closed_error : EngineExc :=
  {| exc_mro := ["RuntimeError"; "Exception"; "BaseException"; "object"];
     exc_str := "Session is closed" |}.

Definition is_import (ev : Event) : bool :=
  match ev with EvImport _ => true | _ => false end.
Definition is_connector_new (ev : Event) : bool :=
  match ev with EvConnectorNew _ => true | _ => false end.
Definition is_session_new (ev : Event) : bool :=
  match ev with EvSessionNew _ => true | _ => false end.
Definition is_request (ev : Event) : bool :=
  match ev with EvRequest _ _ => true | _ => false end.
Definition is_session_close (ev : Event) : bool :=
  match ev with EvSessionClose _ => true | _ => false end.
Definition is_connector_close (ev : Event) : bool :=
  match ev with EvConnectorClose _ => true | _ => false end.

Definition count (p : Event -> bool) (w : World) : nat :=
  length (List.filter p w).

(** The engine as found at run time: whether [import aiohttp_http2]
    succeeds (and then whether its connectors have a [close]), and what a
    request through a session is answered, given all that happened. *)
Class Engine := {
  aiohttp_http2 : option bool;
  engine_request : World -> Session -> EngineCall -> EngineOutcome
}.

(** ** Exceptions and results *)

Inductive ErrorKind :=
| ConnectError
| NetworkError
| RemoteProtocolError
| ProtocolError
| ReadError
| TimeoutException.

(** [TypeError callee]: the interpreter refused a call of [callee] whose
    arguments do not fit its parameters (the text depends on the
    interpreter's version).  [RuntimeError]: what the interpreter makes of
    a [StopIteration] that leaves a coroutine or an asynchronous
    generator. *)
Inductive Exn :=
| ValueError (msg : string)
| ImportError (msg : string)
| AttributeError (msg : string)
| TypeError (callee : string)
| UnicodeError
| TransportError (kind : ErrorKind) (msg : string) (cause : EngineExc)
| RuntimeError (msg : string) (cause : EngineExc)
| Uncaught (e : EngineExc).

Inductive result (A : Type) :=
| Ok (a : A)
| Raise (e : Exn).
Arguments Ok {A} a.
Arguments Raise {A} e.

(** ** The transport *)

Record Transport := {
  _timeout : ClientTimeout;
  _connector : Connector;
  _session : option Session;
  _session_kwargs : SessionKwargs
}.

Definition set_session (t : Transport) (s : option Session) : Transport :=
  {| _timeout := _timeout t;
     _connector := _connector t;
     _session := s;
     _session_kwargs := _session_kwargs t |}.

Section Construction.
Context `{Httpx} `{Engine}.

(** [proxy = Proxy(url=proxy) if isinstance(proxy, (str, URL)) else proxy] *)
Definition coerce_proxy (p : option ProxyArg) : option Proxy :=
  match p with
  | Some (ProxyStr s) => Some (Proxy_of_url (inl s))
  | Some (ProxyURL u) => Some (Proxy_of_url (inr u))
  | Some (ProxyObj p) => Some p
  | None => None
  end.

(** The dictionary literal [connector_kwargs]. *)
Definition base_connector_kwargs (ssl_context : SSLContext) (l : Limits)
  : gmap string PyValue :=
  list_to_map
    [ ("ssl", PySSL ssl_context);
      ("limit", py_opt_int (max_connections l));
      ("enable_cleanup_closed", PyBool true);
      ("force_close", PyBool false);
      ("limit_per_host", py_opt_int (max_keepalive_connections l));
      ("ttl_dns_cache", py_opt_float (keepalive_expiry l)) ].

Definition proxy_scheme_ok (scheme : string) : bool :=
  String.eqb scheme "http" || String.eqb scheme "https".

Definition proxy_error (scheme : string) : string :=
  "AioHTTPTransport only supports HTTP proxies, not " +:+ py_repr scheme +:+ ".".

(** The block under [if proxy is not None]. *)
Definition add_proxy (p : option Proxy) (kw : gmap string PyValue)
  : result (gmap string PyValue) :=
  match p with
  | None => Ok kw
  | Some p =>
      let scheme := url_scheme (proxy_url p) in
      if proxy_scheme_ok scheme then
        let kw := <["proxy" := PyStr (url_str (proxy_url p))]> kw in
        if headers_bool (proxy_headers p) then
          Ok (<["proxy_headers" :=
                  PyDictV (PyDict.of_pairs (headers_items (proxy_headers p)))]> kw)
        else Ok kw
      else Raise (ValueError (proxy_error scheme))
  end.

(** Whether the [Proxy] constructor, called for a [str] or a [URL],
    raises, and with what text. *)
Definition proxy_refusal (p : option ProxyArg) : option string :=
  match p with
  | Some (ProxyStr s) => Proxy_refuses (inl s)
  | Some (ProxyURL u) => Proxy_refuses (inr u)
  | Some (ProxyObj _) => None
  | None => None
  end.

(** The connector parameters [__init__] arrives at, before any connector
    is made. *)
Definition connector_kwargs (cfg : TransportConfig)
  : result (gmap string PyValue) :=
  match proxy_refusal (proxy cfg) with
  | Some msg => Raise (ValueError msg)
  | None =>
      let proxy := coerce_proxy (proxy cfg) in
      let ssl_context :=
        create_ssl_context (verify cfg) (cert cfg) (trust_env cfg) in
      add_proxy proxy (base_connector_kwargs ssl_context (limits cfg))
  end.

Definition http2_error : string :=
  "Using HTTP/2 with aiohttp requires aiohttp_http2 to be installed. "
  +:+ "Install it with `pip install aiohttp_http2`.".

Definition new_connector (cls : ConnectorClass) (has_close : bool)
    (kw : gmap string PyValue) (w : World) : Connector * World :=
  let c := {| conn_id := count is_connector_new w;
              conn_class := cls;
              conn_kwargs := kw;
              conn_has_close := has_close |} in
  (c, w ++ [EvConnectorNew c]).

(** [aiohttp.TCPConnector] has no [proxy] and no [proxy_headers]
    parameter: called with either keyword it raises a [TypeError] and no
    connector is made. *)
Definition tcp_connector_accepts (kw : gmap string PyValue) : bool :=
  match kw !! "proxy", kw !! "proxy_headers" with
  | None, None => true
  | _, _ => false
  end.

(** The block under [# Create connector]. *)
Definition create_connector (http2 : bool) (kw : gmap string PyValue)
    (w : World) : result Connector * World :=
  if http2 then
    let w := w ++ [EvImport "aiohttp_http2"] in
    match aiohttp_http2 with
    | Some has_close =>
        let (c, w) := new_connector HTTP2ClientConnector has_close kw w in
        (Ok c, w)
    | None => (Raise (ImportError http2_error), w)
    end
  else if tcp_connector_accepts kw then
    let (c, w) := new_connector TCPConnector true kw w in
    (Ok c, w)
  else (Raise (TypeError "aiohttp.TCPConnector"), w).

Definition no_timeout : ClientTimeout :=
  {| total := None; connect := None; sock_connect := None; sock_read := None |}.

(** [AioHTTPTransport.__init__]; [kwargs] is the [**kwargs] catch-all. *)
Definition __init__ (cfg : TransportConfig) (kwargs : list (string * PyValue))
    (w : World) : result Transport * World :=
  match connector_kwargs cfg with
  | Raise e => (Raise e, w)
  | Ok kw =>
      match create_connector (http2 cfg) kw w with
      | (Raise e, w) => (Raise e, w)
      | (Ok c, w) =>
          (Ok {| _timeout := no_timeout;
                 _connector := c;
                 _session := None;
                 _session_kwargs :=
                   {| sk_connector := c;
                      sk_timeout := no_timeout;
                      sk_auto_decompress := false;
                      sk_trust_env := trust_env cfg |} |}, w)
      end
  end.

End Construction.

(** ** Requests and responses of the calling library ([httpx._models]) *)

Inductive Method :=
| MethodBytes (b : bytes)
| MethodStr (s : string).

(** A request body: its chunks, and whether the stream object has an
    [__aiter__] attribute. *)
Inductive RequestStream :=
| AsyncStream (chunks : list bytes)
| SyncStream (chunks : list bytes).

Module Request.
Record t := {
  method : Method;
  url : URL;
  headers : Headers;
  stream : RequestStream
}.
End Request.

(** [AsyncResponseStream]: the wrapped [aiohttp.StreamReader]. *)
Record AsyncResponseStream := { _content : list ReadOutcome }.

Module Response.
Record t := {
  status_code : Z;
  headers : list (bytes * bytes);
  stream : AsyncResponseStream;
  extensions : list (string * string)
}.
End Response.

(** ** Error mapping *)

(** The [isinstance] chain under [except aiohttp.ClientError]. *)
Definition classify_client_error (exc : EngineExc) : ErrorKind :=
  if isinstance exc "aiohttp.ClientConnectorError" then ConnectError
  else if isinstance exc "aiohttp.ClientOSError" then NetworkError
  else if isinstance exc "aiohttp.ServerDisconnectedError" then RemoteProtocolError
  else if isinstance exc "aiohttp.ClientResponseError" then ProtocolError
  else if isinstance exc "aiohttp.ClientPayloadError" then ReadError
  else NetworkError.

(** The two [except] clauses of [handle_async_request], tried in order.
    An exception that matches neither leaves the coroutine: as a
    [RuntimeError] when it is a [StopIteration], which no coroutine lets
    out, and as it is otherwise. *)
Definition map_request_error (exc : EngineExc) : Exn :=
  if isinstance exc "aiohttp.ClientError" then
    TransportError (classify_client_error exc) (exc_str exc) exc
  else if isinstance exc "asyncio.TimeoutError" then
    TransportError TimeoutException (exc_str exc) exc
  else if isinstance exc "StopIteration" then
    RuntimeError "coroutine raised StopIteration" exc
  else Uncaught exc.

(** The [except] clause of [AsyncResponseStream.__aiter__].  An exception
    it does not match leaves the asynchronous generator: as a
    [RuntimeError] when it is a [StopIteration] or a [StopAsyncIteration],
    and as it is otherwise. *)
Definition map_stream_error (exc : EngineExc) : Exn :=
  if isinstance exc "aiohttp.ClientError" || isinstance exc "asyncio.TimeoutError"
  then TransportError NetworkError (exc_str exc) exc
  else if isinstance exc "StopIteration" then
    RuntimeError "async generator raised StopIteration" exc
  else if isinstance exc "StopAsyncIteration" then
    RuntimeError "async generator raised StopAsyncIteration" exc
  else Uncaught exc.

(** [AsyncResponseStream.__aiter__], run to its end: the chunks it yields
    and the exception that ends it, if one does. *)
Fixpoint __aiter__ (content : list ReadOutcome) : list bytes * option Exn :=
  match content with
  | [] => ([], None)
  | ReadChunk chunk :: rest =>
      if String.eqb chunk "" then ([], None)
      else let (chunks, e) := __aiter__ rest in (chunk :: chunks, e)
  | ReadRaises exc :: _ => ([], Some (map_stream_error exc))
  end.

(** ** Session life cycle and request handling *)

Section Bridge.
Context `{Httpx} `{Engine}.

(** The check-then-create of the session: when [self._session] is
    [None] a [ClientSession] is made from [self._session_kwargs] and
    stored.  The constructor call is synchronous: nothing is awaited
    between the check and the assignment. *)
Definition ensure_session (self : Transport) (w : World) : Transport * World :=
  match _session self with
  | Some _ => (self, w)
  | None =>
      let s := {| session_id := count is_session_new w;
                  session_kwargs := _session_kwargs self |} in
      (set_session self (Some s), w ++ [EvSessionNew s])
  end.

Definition __aenter__ (self : Transport) (w : World) : Transport * World :=
  ensure_session self w.

Definition convert_method (m : Method) : result string :=
  match m with
  | MethodBytes b =>
      match decode_ascii b with
      | Some s => Ok s
      | None => Raise UnicodeError
      end
  | MethodStr s => Ok s
  end.

Definition feed_data (r : StreamReader) (chunk : bytes) : StreamReader :=
  {| fed := fed r ++ [chunk]; eof := eof r |}.

Definition feed_eof (r : StreamReader) : StreamReader :=
  {| fed := fed r; eof := true |}.

(** [aiohttp.StreamReader()]: the constructor has two required
    parameters, [protocol] and [limit], and the call gives neither. *)
Definition StreamReader_new : result StreamReader :=
  Raise (TypeError "aiohttp.StreamReader").

(** The block under [# Handle request content]: for a stream with
    [__aiter__] a reader is constructed, fed the chunks and closed by the
    end mark. *)
Definition request_data (st : RequestStream) : result (option StreamReader) :=
  match st with
  | AsyncStream chunks =>
      match StreamReader_new with
      | Raise e => Raise e
      | Ok data => Ok (Some (feed_eof (fold_left feed_data chunks data)))
      end
  | SyncStream _ => Ok None
  end.

(** [[(k.encode("ascii"), v.encode("ascii")) for k, v in ...]] *)
Fixpoint encode_headers (hs : list (string * string))
  : option (list (bytes * bytes)) :=
  match hs with
  | [] => Some []
  | (k, v) :: r =>
      match encode_ascii k, encode_ascii v, encode_headers r with
      | Some k', Some v', Some r' => Some ((k', v') :: r')
      | _, _, _ => None
      end
  end.

(** Whether every name and value of a header list is ASCII. *)
Definition is_ascii_headers (hs : list (string * string)) : bool :=
  forallb (fun kv => is_ascii (fst kv) && is_ascii (snd kv)) hs.

(** The keyword arguments of [self._session.request]. *)
Definition call_with (request : Request.t) (method : string)
    (data : option StreamReader) : EngineCall :=
  {| call_method := method;
     call_url := url_str (Request.url request);
     call_headers := PyDict.of_pairs (headers_items (Request.headers request));
     call_data := data;
     call_allow_redirects := false |}.

(** The call made for a request that gets as far as the engine. *)
Definition engine_call (request : Request.t) (method : string) : EngineCall :=
  call_with request method None.

(** What the [try] statement does once the engine has answered the call
    made through session [s]: the conversion of the response, or the two
    [except] clauses.  Leaving the [async with] block releases the
    engine's response. *)
Definition receive (s : Session) (call : EngineCall) (w : World)
  : result Response.t * World :=
  match engine_request w s call with
  | Fails exc => (Raise (map_request_error exc), w)
  | Responds aiohttp_response =>
      let w := w ++ [EvRelease s] in
      match encode_headers (response_headers aiohttp_response) with
      | None => (Raise UnicodeError, w)
      | Some headers =>
          (Ok {| Response.status_code := status aiohttp_response;
                 Response.headers := headers;
                 Response.stream :=
                   {| _content := content aiohttp_response |};
                 Response.extensions := [] |}, w)
      end
  end.

Definition no_session_error : Exn :=
  AttributeError "'NoneType' object has no attribute 'request'".

(** The [try] statement: [self._session] is read and the call is issued
    through it; a closed session raises at once, and otherwise the answer
    is awaited. *)
Definition dispatch (self : Transport) (call : EngineCall) (w : World)
  : result Response.t * World :=
  match _session self with
  | None => (Raise no_session_error, w)
  | Some s =>
      let w := w ++ [EvRequest s call] in
      if session_closed w s
      then (Raise (map_request_error session_closed_error), w)
      else receive s call w
  end.

Definition handle_async_request (self : Transport) (request : Request.t)
    (w : World) : result Response.t * Transport * World :=
  let (self, w) := ensure_session self w in
  match convert_method (Request.method request) with
  | Raise e => (Raise e, self, w)
  | Ok method =>
      match request_data (Request.stream request) with
      | Raise e => (Raise e, self, w)
      | Ok data =>
          let (r, w) := dispatch self (call_with request method data) w in
          (r, self, w)
      end
  end.

Definition aclose (self : Transport) (w : World) : Transport * World :=
  let (self, w) :=
    match _session self with
    | Some s => (set_session self None, w ++ [EvSessionClose s])
    | None => (self, w)
    end in
  if conn_has_close (_connector self)
  then (self, w ++ [EvConnectorClose (_connector self)])
  else (self, w).

Definition __aexit__ (self : Transport) (w : World) : Transport * World :=
  aclose self w.

End Bridge.

(** ** Concurrent callers on one event loop

    Coroutines of one event loop run one at a time and hand over control
    only at an [await].  A call of [handle_async_request] is therefore a
    sequence of blocks that run without interruption: from the entry to the
    first [await], and from each resumption to the next [await].  The
    [await]s the call gets to are the one on the engine's answer, on
    entering the [async with] statement, and the one on leaving it.  Any
    interleaving of the blocks of several calls is a possible run. *)

Inductive Task :=
| Created (request : Request.t)
| Awaiting (s : Session) (call : EngineCall)
| Leaving (r : result Response.t)
| Finished (r : result Response.t).

Section Scheduling.
Context `{Httpx} `{Engine}.

(** Entering the [try] statement: up to the [await] on the engine. *)
Definition send (self : Transport) (call : EngineCall) (w : World)
  : Task * World :=
  match _session self with
  | None => (Finished (Raise no_session_error), w)
  | Some s =>
      let w := w ++ [EvRequest s call] in
      if session_closed w s
      then (Finished (Raise (map_request_error session_closed_error)), w)
      else (Awaiting s call, w)
  end.

(** Whether the engine answers the call with a response. *)
Definition answered (w : World) (s : Session) (call : EngineCall) : bool :=
  match engine_request w s call with
  | Responds _ => true
  | Fails _ => false
  end.

(** One block of a call: from where the task stands to its next [await].
    A call the engine has answered still has to leave the [async with]
    statement; one the engine has failed is over. *)
Definition resume (task : Task) (self : Transport) (w : World)
  : Task * Transport * World :=
  match task with
  | Created request =>
      let (self, w) := ensure_session self w in
      match convert_method (Request.method request) with
      | Raise e => (Finished (Raise e), self, w)
      | Ok method =>
          match request_data (Request.stream request) with
          | Raise e => (Finished (Raise e), self, w)
          | Ok data =>
              let (task, w) := send self (call_with request method data) w in
              (task, self, w)
          end
      end
  | Awaiting s call =>
      let (r, w') := receive s call w in
      (if answered w s call then Leaving r else Finished r, self, w')
  | Leaving r => (Finished r, self, w)
  | Finished r => (task, self, w)
  end.

Record System := {
  transport : Transport;
  world : World;
  tasks : list Task
}.

(** The event loop resumes task [i]. *)
Definition step (sys : System) (i : nat) : System :=
  match tasks sys !! i with
  | None => sys
  | Some task =>
      let '(task, self, w) := resume task (transport sys) (world sys) in
      {| transport := self; world := w; tasks := <[i := task]> (tasks sys) |}
  end.

Definition run (schedule : list nat) (sys : System) : System :=
  fold_left step schedule sys.

(** A call run on its own, block after block, for [n] blocks. *)
Fixpoint run_alone (n : nat) (task : Task) (self : Transport) (w : World)
  : Task * Transport * World :=
  match n with
  | O => (task, self, w)
  | S n =>
      let '(task, self, w) := resume task self w in
      run_alone n task self w
  end.

End Scheduling.

(** ** Sequences of operations on one transport *)

Inductive Op :=
| OpEnter
| OpRequest (request : Request.t)
| OpClose.

Section Operations.
Context `{Httpx} `{Engine}.

Definition apply_op (st : Transport * World) (op : Op) : Transport * World :=
  let (self, w) := st in
  match op with
  | OpEnter => __aenter__ self w
  | OpRequest request =>
      let '(_, self, w) := handle_async_request self request w in (self, w)
  | OpClose => aclose self w
  end.

Definition run_ops (ops : list Op) (st : Transport * World) : Transport * World :=
  fold_left apply_op ops st.

End Operations.

(** The engine calls recorded in a log. *)
Definition requests_of (w : World) : list EngineCall :=
  omap (fun ev => match ev with EvRequest _ call => Some call | _ => None end) w.

Definition sessions_of (w : World) : list Session :=
  omap (fun ev => match ev with EvSessionNew s => Some s | _ => None end) w.

(** The session an event or a suspended call goes through, when it goes
    through one at all, is [s0]. *)
Definition through (s0 : Session) (ev : Event) : Prop :=
  match ev with
  | EvRequest s _ => s = s0
  | _ => True
  end.

Definition awaits (s0 : Session) (task : Task) : Prop :=
  match task with
  | Awaiting s _ => s = s0
  | _ => True
  end.

Definition is_created (task : Task) : Prop :=
  match task with
  | Created _ => True
  | _ => False
  end.

(** The session the first call to run makes on a transport [self0] that
    has none, in the log [w0]. *)
Definition first_session (self0 : Transport) (w0 : World) : Session :=
  {| session_id := count is_session_new w0;
     session_kwargs := _session_kwargs self0 |}.

(** What holds of the shared state once that session exists: the transport
    holds it, it is the only one made since [w0], and every engine call
    since went through it. *)
Definition settled (self0 : Transport) (w0 : World)
    (self : Transport) (w : World) : Prop :=
  self = set_session self0 (Some (first_session self0 w0))
  /\ exists new,
       w = w0 ++ new
       /\ sessions_of new = [first_session self0 w0]
       /\ Forall (through (first_session self0 w0)) new.

(** The state of the loop after a schedule over [n] calls: either no call
    has run yet, or the one session exists and everything goes through it. *)
Definition loop_invariant (self0 : Transport) (w0 : World)
    (n : nat) (schedule : list nat) (sys : System) : Prop :=
  length (tasks sys) = n
  /\ Forall (awaits (first_session self0 w0)) (tasks sys)
  /\ ((transport sys = self0 /\ world sys = w0
       /\ Forall is_created (tasks sys) /\ Forall (fun i => n <= i) schedule)
      \/ settled self0 w0 (transport sys) (world sys)).

(** ** [Headers.items()]

    [Headers.items()] as [httpx._models] has it (the class is not under
    src/): one item for each name, the names in lower case and in the
    order of their first occurrence, the values of a repeated name joined
    by a comma and a space. *)
Definition lower_char (c : ascii) : ascii :=
  let n := nat_of_ascii c in
  if (65 <=? n)%nat && (n <=? 90)%nat then ascii_of_nat (n + 32) else c.

Fixpoint lower (s : string) : string :=
  match s with
  | EmptyString => EmptyString
  | String c r => String (lower_char c) (lower r)
  end.

Fixpoint merge_item (k v : string) (d : list (string * string))
  : list (string * string) :=
  match d with
  | [] => [(k, v)]
  | (k', v') :: r =>
      if String.eqb k k' then (k', v' +:+ ", " +:+ v) :: r
      else (k', v') :: merge_item k v r
  end.

Definition merge_header (d : list (string * string)) (kv : string * string)
  : list (string * string) :=
  merge_item (lower (fst kv)) (snd kv) d.

Definition httpx_items (h : Headers) : list (string * string) :=
  fold_left merge_header h [].

(** The values a header list gives for a lower-case name, in order, and
    their joining. *)
Definition values_of (k : string) (h : Headers) : list string :=
  map snd (List.filter (fun kv => String.eqb (lower (fst kv)) k) h).

Definition join_more (o : option string) (v : string) : option string :=
  match o with
  | Some v0 => Some (v0 +:+ ", " +:+ v)
  | None => Some v
  end.

Definition comma_join (vs : list string) : option string :=
  fold_left join_more vs None.

(** ** Stand-ins for the collaborators, for the examples

    [scheme_of] reads a scheme off a URL text: what precedes the first
    colon. *)
Fixpoint scheme_of (s : string) : string :=
  match s with
  | EmptyString => ""
  | String c r => if Ascii.eqb c ":" then "" else String c (scheme_of r)
  end.

Definition url_of (s : string) : URL :=
  {| url_scheme := scheme_of s; url_str := s |}.

(** The schemes the [Proxy] constructor of [httpx._config] accepts. *)
Definition known_proxy_scheme (scheme : string) : bool :=
  existsb (String.eqb scheme) ["http"; "https"; "socks5"; "socks5h"].

Definition plain_httpx : Httpx :=
  {| create_ssl_context := fun _ _ _ => {| ssl_handle := 0 |};
     Proxy_of_url := fun a =>
       {| proxy_url := match a with inl s => url_of s | inr u => u end;
          proxy_headers := [] |};
     Proxy_refuses := fun a =>
       let u := match a with inl s => url_of s | inr u => u end in
       if known_proxy_scheme (url_scheme u) then None
       else Some ("Unknown scheme for proxy URL URL(" +:+ py_repr (url_str u) +:+ ")");
     DEFAULT_LIMITS :=
       {| max_connections := Some 100%Z;
          max_keepalive_connections := Some 20%Z;
          keepalive_expiry := Some (5 # 1)%Q |};
     headers_items := httpx_items |}.

(** An engine that answers every call with the same outcome. *)
Definition constant_engine (ext : option bool) (o : EngineOutcome) : Engine :=
  {| aiohttp_http2 := ext; engine_request := fun _ _ _ => o |}.

Definition ok_response : ClientResponse :=
  {| status := 200;
     response_headers := [("Content-Type", "text/plain")];
     content := [ReadChunk "hello"] |}.

Definition redirect_response : ClientResponse :=
  {| status := 302;
     response_headers := [("Location", "https://example.org/next")];
     content := [] |}.

Definition default_config `{Httpx} : TransportConfig :=
  {| verify := VerifyBool true;
     cert := None;
     trust_env := true;
     http1 := true;
     http2 := false;
     limits := DEFAULT_LIMITS;
     proxy := None;
     socket_options := None |}.

Definition with_proxy (cfg : TransportConfig) (p : option ProxyArg)
  : TransportConfig :=
  {| verify := verify cfg;
     cert := cert cfg;
     trust_env := trust_env cfg;
     http1 := http1 cfg;
     http2 := http2 cfg;
     limits := limits cfg;
     proxy := p;
     socket_options := socket_options cfg |}.

Definition with_http2 (cfg : TransportConfig) (b : bool) : TransportConfig :=
  {| verify := verify cfg;
     cert := cert cfg;
     trust_env := trust_env cfg;
     http1 := http1 cfg;
     http2 := b;
     limits := limits cfg;
     proxy := proxy cfg;
     socket_options := socket_options cfg |}.

(** ** Calling the constructor by keyword

    A keyword argument of a call [AioHTTPTransport(...)]: one of the eight
    named parameters, or a name that is none of them. *)
Inductive Keyword :=
| KwVerify (v : Verify)
| KwCert (c : option string)
| KwTrustEnv (b : bool)
| KwHttp1 (b : bool)
| KwHttp2 (b : bool)
| KwLimits (l : Limits)
| KwProxy (p : option ProxyArg)
| KwSocketOptions (o : option string)
| KwOther (name : string) (value : PyValue).

Definition is_other (a : Keyword) : bool :=
  match a with KwOther _ _ => true | _ => false end.

(** A named parameter takes the value given for it; any other name goes
    into the catch-all dictionary. *)
Definition bind_keyword (st : TransportConfig * list (string * PyValue))
    (a : Keyword) : TransportConfig * list (string * PyValue) :=
  let (cfg, kwargs) := st in
  let mk v c t h1 h2 l p so :=
    {| verify := v; cert := c; trust_env := t; http1 := h1; http2 := h2;
       limits := l; proxy := p; socket_options := so |} in
  let keep := mk (verify cfg) (cert cfg) (trust_env cfg) (http1 cfg) (http2 cfg)
                 (limits cfg) (proxy cfg) (socket_options cfg) in
  match a with
  | KwVerify v =>
      (mk v (cert cfg) (trust_env cfg) (http1 cfg) (http2 cfg) (limits cfg)
          (proxy cfg) (socket_options cfg), kwargs)
  | KwCert c =>
      (mk (verify cfg) c (trust_env cfg) (http1 cfg) (http2 cfg) (limits cfg)
          (proxy cfg) (socket_options cfg), kwargs)
  | KwTrustEnv b =>
      (mk (verify cfg) (cert cfg) b (http1 cfg) (http2 cfg) (limits cfg)
          (proxy cfg) (socket_options cfg), kwargs)
  | KwHttp1 b =>
      (mk (verify cfg) (cert cfg) (trust_env cfg) b (http2 cfg) (limits cfg)
          (proxy cfg) (socket_options cfg), kwargs)
  | KwHttp2 b =>
      (mk (verify cfg) (cert cfg) (trust_env cfg) (http1 cfg) b (limits cfg)
          (proxy cfg) (socket_options cfg), kwargs)
  | KwLimits l =>
      (mk (verify cfg) (cert cfg) (trust_env cfg) (http1 cfg) (http2 cfg) l
          (proxy cfg) (socket_options cfg), kwargs)
  | KwProxy p =>
      (mk (verify cfg) (cert cfg) (trust_env cfg) (http1 cfg) (http2 cfg)
          (limits cfg) p (socket_options cfg), kwargs)
  | KwSocketOptions o =>
      (mk (verify cfg) (cert cfg) (trust_env cfg) (http1 cfg) (http2 cfg)
          (limits cfg) (proxy cfg) o, kwargs)
  | KwOther name value => (keep, kwargs ++ [(name, value)])
  end.

(** The parameters start from their defaults. *)
Definition bind_arguments `{Httpx} (args : list Keyword)
  : TransportConfig * list (string * PyValue) :=
  fold_left bind_keyword args (default_config, []).

(** [AioHTTPTransport(...)] with the keyword arguments [args]. *)
Definition construct `{Httpx} `{Engine} (args : list Keyword) (w : World)
  : result Transport * World :=
  let (cfg, kwargs) := bind_arguments args in
  __init__ cfg kwargs w.

(** Two exceptions of the engine, with the classes aiohttp derives them
    from. *)
Definition connection_refused : EngineExc :=
  {| exc_mro :=
       ["aiohttp.ClientConnectorError"; "aiohttp.ClientOSError";
        "aiohttp.ClientConnectionError"; "aiohttp.ClientError";
        "OSError"; "Exception"; "BaseException"; "object"];
     exc_str := "Cannot connect to host example.org:443 [Connection refused]" |}.

Definition server_disconnected : EngineExc :=
  {| exc_mro :=
       ["aiohttp.ServerDisconnectedError"; "aiohttp.ServerConnectionError";
        "aiohttp.ClientConnectionError"; "aiohttp.ClientError";
        "Exception"; "BaseException"; "object"];
     exc_str := "Server disconnected" |}.

(** A request as a client makes it: its stream has [__aiter__]. *)
Definition get_request (hs : Headers) : Request.t :=
  {| Request.method := MethodBytes "GET";
     Request.url := url_of "https://example.org/";
     Request.headers := hs;
     Request.stream := AsyncStream [] |}.

(** A request whose stream has no [__aiter__]. *)
Definition sync_request (hs : Headers) : Request.t :=
  {| Request.method := MethodBytes "GET";
     Request.url := url_of "https://example.org/";
     Request.headers := hs;
     Request.stream := SyncStream [] |}.

(** The transport [AioHTTPTransport()] makes in an empty log, with the
    stand-in collaborators. *)
Definition plain_connector : Connector :=
  {| conn_id := 0;
     conn_class := TCPConnector;
     conn_kwargs :=
       base_connector_kwargs {| ssl_handle := 0 |} (@DEFAULT_LIMITS plain_httpx);
     conn_has_close := true |}.

Definition plain_transport : Transport :=
  {| _timeout := no_timeout;
     _connector := plain_connector;
     _session := None;
     _session_kwargs :=
       {| sk_connector := plain_connector;
          sk_timeout := no_timeout;
          sk_auto_decompress := false;
          sk_trust_env := true |} |}.

(** Inputs of the examples. *)
Definition quiet_engine : Engine := constant_engine None (Responds ok_response).

Definition ftp_proxy_config : TransportConfig :=
  with_proxy (@default_config plain_httpx) (Some (ProxyStr "ftp://proxy.example:21")).

Definition http_proxy : Proxy :=
  {| proxy_url := url_of "http://proxy.example:3128";
     proxy_headers := [("Proxy-Authorization", "Basic dTpw")] |}.

Definition http_proxy_config : TransportConfig :=
  with_proxy (@default_config plain_httpx) (Some (ProxyObj http_proxy)).

Definition interleaved : System :=
  @run plain_httpx quiet_engine [0; 1; 1; 0; 0; 1]
    {| transport := plain_transport; world := [];
       tasks := map Created [sync_request []; sync_request [("Accept", "*/*")]] |}.

(** ** Further notions used by the properties *)

Definition with_http1 (cfg : TransportConfig) (b : bool) : TransportConfig :=
  {| verify := verify cfg;
     cert := cert cfg;
     trust_env := trust_env cfg;
     http1 := b;
     http2 := http2 cfg;
     limits := limits cfg;
     proxy := proxy cfg;
     socket_options := socket_options cfg |}.

Definition with_socket_options (cfg : TransportConfig) (o : option string)
  : TransportConfig :=
  {| verify := verify cfg;
     cert := cert cfg;
     trust_env := trust_env cfg;
     http1 := http1 cfg;
     http2 := http2 cfg;
     limits := limits cfg;
     proxy := proxy cfg;
     socket_options := o |}.

(** The keys of the dictionary literal [connector_kwargs], and the keys
    the proxy block adds. *)
Definition base_keys : gset string :=
  {[ "ssl"; "limit"; "enable_cleanup_closed"; "force_close";
     "limit_per_host"; "ttl_dns_cache" ]}.

Definition proxy_keys (p : option Proxy) : gset string :=
  match p with
  | None => ∅
  | Some p =>
      if headers_bool (proxy_headers p)
      then {[ "proxy"; "proxy_headers" ]}
      else {[ "proxy" ]}
  end.

Definition is_close_op (op : Op) : bool :=
  match op with OpClose => true | _ => false end.

(** Whether the transport holds a session, as a number. *)
Definition live (self : Transport) : nat :=
  match _session self with Some _ => 1 | None => 0 end.

(** An exception that is not the engine's: a [TypeError] of the
    interpreter. *)
Definition type_error : EngineExc :=
  {| exc_mro := ["TypeError"; "Exception"; "BaseException"; "object"];
     exc_str := "unexpected keyword argument" |}.

Definition upload_request : Request.t :=
  {| Request.method := MethodStr "POST";
     Request.url := url_of "https://example.org/upload";
     Request.headers := [("Content-Type", "application/octet-stream")];
     Request.stream := AsyncStream ["first"; "second"] |}.

(** A transport that holds a session. *)
Definition held_transport : Transport :=
  set_session plain_transport (Some (first_session plain_transport [])).

(** A request whose method is a [bytes] with a byte outside ASCII. *)
Definition latin_method_request : Request.t :=
  {| Request.method := MethodBytes (String (ascii_of_nat 233) "T");
     Request.url := url_of "https://example.org/";
     Request.headers := [];
     Request.stream := AsyncStream [] |}.

(** The engine's own timeout, with the classes aiohttp derives it from. *)
Definition server_timeout : EngineExc :=
  {| exc_mro :=
       ["aiohttp.ServerTimeoutError"; "aiohttp.ServerConnectionError";
        "aiohttp.ClientConnectionError"; "aiohttp.ClientError";
        "asyncio.TimeoutError"; "Exception"; "BaseException"; "object"];
     exc_str := "Timeout on reading data from socket" |}.

Definition stop_iteration : EngineExc :=
  {| exc_mro := ["StopIteration"; "Exception"; "BaseException"; "object"];
     exc_str := "" |}.

(** The proxy of the repository's own test, and one that only the
    transport turns down. *)
Definition http_url_proxy_config : TransportConfig :=
  with_proxy (@default_config plain_httpx) (Some (ProxyStr "http://example.org")).

Definition socks_proxy_config : TransportConfig :=
  with_proxy (@default_config plain_httpx) (Some (ProxyStr "socks5://proxy.example:1080")).

(** * Properties *)

(** ** Counting in logs *)

Lemma count_app p (w1 w2 : World) :
  count p (w1 ++ w2) = count p w1 + count p w2.
Proof. unfold count. rewrite List.filter_app, length_app. reflexivity. Qed.

Lemma count_snoc p (w : World) ev :
  count p (w ++ [ev]) = count p w + (if p ev then 1 else 0).
Proof. rewrite count_app. unfold count. simpl. destruct (p ev); reflexivity. Qed.

(** ** [repr] of plain text *)

Lemma repr_char_plain q c :
  q = single_quote \/ q = double_quote ->
  plain_char c = true -> repr_char q c = String c "".
Proof.
  intros Hq Hc.
  destruct c as [[] [] [] [] [] [] [] []]; try discriminate Hc;
    destruct Hq as [-> | ->]; reflexivity.
Qed.

Lemma repr_body_plain q s :
  q = single_quote \/ q = double_quote ->
  plain s = true -> repr_body q s = s.
Proof.
  intros Hq. induction s as [|c r IH]; simpl; [reflexivity|].
  intros [Hc Hr]%andb_prop.
  rewrite (repr_char_plain q c Hq Hc), (IH Hr). reflexivity.
Qed.

Lemma contains_single_quote_plain s :
  plain s = true -> contains_char single_quote s = false.
Proof.
  induction s as [|c r IH]; cbn [plain contains_char]; [reflexivity|].
  intros [Hc Hr]%andb_prop. rewrite (IH Hr).
  destruct (Ascii.eqb_spec single_quote c) as [<-|]; [discriminate Hc|reflexivity].
Qed.

Lemma py_repr_plain s :
  plain s = true ->
  py_repr s = String single_quote (s +:+ String single_quote "").
Proof.
  intros Hs. unfold py_repr, repr_quote.
  rewrite (contains_single_quote_plain s Hs). simpl.
  rewrite repr_body_plain; auto.
Qed.

(** ** Construction *)

Section ConstructionFacts.
Context `{Httpx}.

Lemma proxy_scheme_ok_spec scheme :
  proxy_scheme_ok scheme = true <-> scheme = "http" \/ scheme = "https".
Proof.
  unfold proxy_scheme_ok. rewrite orb_true_iff, !String.eqb_eq. reflexivity.
Qed.

(** The six entries of the dictionary literal survive the proxy block. *)
Lemma add_proxy_keeps p kw kw' k :
  add_proxy p kw = Ok kw' ->
  k <> "proxy" -> k <> "proxy_headers" -> kw' !! k = kw !! k.
Proof.
  unfold add_proxy. intros Hadd Hk1 Hk2.
  destruct p as [p|]; [|injection Hadd as <-; reflexivity].
  destruct (proxy_scheme_ok _); [|discriminate].
  destruct (headers_bool _); injection Hadd as <-;
    rewrite ?lookup_insert_ne by congruence; reflexivity.
Qed.

(** When the parameters are arrived at, the [Proxy] constructor has
    not refused and the proxy block has passed. *)
Lemma connector_kwargs_ok cfg kw :
  connector_kwargs cfg = Ok kw ->
  proxy_refusal (proxy cfg) = None
  /\ add_proxy (coerce_proxy (proxy cfg))
       (base_connector_kwargs
          (create_ssl_context (verify cfg) (cert cfg) (trust_env cfg))
          (limits cfg)) = Ok kw.
Proof.
  unfold connector_kwargs. destruct (proxy_refusal (proxy cfg)); [discriminate|].
  auto.
Qed.

Lemma connector_kwargs_entries cfg kw :
  connector_kwargs cfg = Ok kw ->
  kw !! "limit" = Some (py_opt_int (max_connections (limits cfg)))
  /\ kw !! "limit_per_host"
     = Some (py_opt_int (max_keepalive_connections (limits cfg)))
  /\ kw !! "enable_cleanup_closed" = Some (PyBool true)
  /\ kw !! "force_close" = Some (PyBool false)
  /\ kw !! "ttl_dns_cache" = Some (py_opt_float (keepalive_expiry (limits cfg)))
  /\ kw !! "keepalive_timeout" = None.
Proof.
  intros [_ Hkw]%connector_kwargs_ok.
  repeat split;
    rewrite (add_proxy_keeps _ _ _ _ Hkw) by discriminate; reflexivity.
Qed.

Context `{Engine}.

(** A transport that [__init__] returns holds a connector made from the
    parameters [connector_kwargs] arrived at, and no session. *)
Lemma init_ok_inv cfg kwargs w self w' :
  __init__ cfg kwargs w = (Ok self, w') ->
  connector_kwargs cfg = Ok (conn_kwargs (_connector self))
  /\ _session self = None
  /\ sk_connector (_session_kwargs self) = _connector self
  /\ count is_session_new w' = count is_session_new w.
Proof.
  unfold __init__. destruct (connector_kwargs cfg) as [kw|e]; [|discriminate].
  unfold create_connector, new_connector.
  destruct (http2 cfg);
    [destruct aiohttp_http2 as [hc|]|destruct (tcp_connector_accepts kw)];
    intros [= <- <-]; simpl; rewrite ?count_snoc; simpl;
    repeat split; try reflexivity; lia.
Qed.

Lemma init_raises_of_kwargs cfg kwargs w e :
  connector_kwargs cfg = Raise e -> __init__ cfg kwargs w = (Raise e, w).
Proof. unfold __init__. intros ->. reflexivity. Qed.

(** With proxy parameters and no HTTP/2, the connector constructor
    refuses and [__init__] raises its [TypeError]. *)
Lemma init_tcp_refused cfg kwargs w kw :
  connector_kwargs cfg = Ok kw ->
  http2 cfg = false ->
  tcp_connector_accepts kw = false ->
  __init__ cfg kwargs w = (Raise (TypeError "aiohttp.TCPConnector"), w).
Proof.
  unfold __init__, create_connector. intros -> -> ->. reflexivity.
Qed.

Lemma init_ok_tcp cfg kwargs w self w' :
  __init__ cfg kwargs w = (Ok self, w') ->
  http2 cfg = false ->
  conn_has_close (_connector self) = true
  /\ tcp_connector_accepts (conn_kwargs (_connector self)) = true.
Proof.
  unfold __init__, create_connector, new_connector. intros Hinit Hoff.
  rewrite Hoff in Hinit.
  destruct (connector_kwargs cfg) as [kw|e]; [|discriminate].
  destruct (tcp_connector_accepts kw) eqn:Hacc; [|discriminate].
  injection Hinit as <- <-. simpl. auto.
Qed.

End ConstructionFacts.

(** ** Dictionaries *)

Module PyDictFacts.
Import PyDict.

Lemma get_set k v d k' :
  get k' (set k v d) = if String.eqb k' k then Some v else get k' d.
Proof.
  induction d as [|[k0 v0] r IH]; simpl.
  - reflexivity.
  - destruct (String.eqb_spec k k0) as [->|Hne]; simpl.
    + destruct (String.eqb k' k0); reflexivity.
    + rewrite IH. destruct (String.eqb_spec k' k0) as [->|]; [|reflexivity].
      destruct (String.eqb_spec k0 k); congruence.
Qed.

Lemma get_None_keys k d : get k d = None <-> k ∉ keys d.
Proof.
  induction d as [|[k0 v0] r IH]; simpl.
  - split; [intros _; apply not_elem_of_nil|reflexivity].
  - rewrite not_elem_of_cons.
    destruct (String.eqb_spec k k0) as [->|Hne].
    + split; [discriminate|tauto].
    + rewrite IH. tauto.
Qed.

Lemma set_fresh k v d : k ∉ keys d -> set k v d = d ++ [(k, v)].
Proof.
  induction d as [|[k0 v0] r IH]; simpl; [reflexivity|].
  intros [Hne Hk]%not_elem_of_cons.
  destruct (String.eqb_spec k k0) as [->|_]; [congruence|].
  by rewrite IH.
Qed.

Lemma keys_set k v d :
  keys (set k v d)
  = match get k d with Some _ => keys d | None => keys d ++ [k] end.
Proof.
  induction d as [|[k0 v0] r IH]; simpl; [reflexivity|].
  destruct (String.eqb_spec k k0) as [->|Hne]; simpl; [reflexivity|].
  rewrite IH. destruct (get k r); reflexivity.
Qed.

Lemma keys_set_NoDup k v d : NoDup (keys d) -> NoDup (keys (set k v d)).
Proof.
  intros Hd. rewrite keys_set. destruct (get k d) eqn:Hg; [assumption|].
  apply get_None_keys in Hg.
  apply NoDup_app. split; [assumption|]. split; [|apply NoDup_singleton].
  intros x Hx ->%list_elem_of_singleton. contradiction.
Qed.

(** In a dictionary an entry is what [get] finds under its key. *)
Lemma elem_of_get k v d : NoDup (keys d) -> (k, v) ∈ d <-> get k d = Some v.
Proof.
  induction d as [|[k0 v0] r IH]; simpl.
  - intros _. split; [intros []%elem_of_nil|discriminate].
  - intros [Hk0 Hr]%NoDup_cons. rewrite elem_of_cons.
    destruct (String.eqb_spec k k0) as [->|Hne].
    + split; [|intros [= ->]; auto].
      intros [[= ->]|Hin]; [reflexivity|].
      exfalso. apply Hk0. unfold keys.
      apply (list_elem_of_fmap_2 fst r (k0, v)). exact Hin.
    + rewrite <- (IH Hr).
      split; [intros [[= ? ?]|?]; [congruence|assumption]|auto].
Qed.

Lemma fold_keys_NoDup ps d :
  NoDup (keys d) -> NoDup (keys (fold_left add ps d)).
Proof.
  revert d. induction ps as [|[k v] r IH]; simpl; [auto|].
  intros d Hd. apply IH. by apply keys_set_NoDup.
Qed.

Lemma get_snoc k l k0 v0 :
  get k (l ++ [(k0, v0)])
  = match get k l with
    | Some v => Some v
    | None => if String.eqb k k0 then Some v0 else None
    end.
Proof.
  induction l as [|[k1 v1] l IHl]; simpl; [reflexivity|].
  destruct (String.eqb k k1); [reflexivity|apply IHl].
Qed.

Lemma fold_get ps d k :
  get k (fold_left add ps d)
  = match get k (rev ps) with Some v => Some v | None => get k d end.
Proof.
  revert d. induction ps as [|[k0 v0] r IH]; simpl; [reflexivity|].
  intros d. rewrite IH, get_snoc. unfold add. simpl. rewrite get_set.
  destruct (get k (rev r)); [reflexivity|].
  destruct (String.eqb k k0); reflexivity.
Qed.

Lemma fold_distinct ps d :
  NoDup (keys d ++ ps.*1) -> fold_left add ps d = d ++ ps.
Proof.
  revert d. induction ps as [|[k v] r IH]; simpl; intros d Hd.
  - by rewrite app_nil_r.
  - unfold add at 2. simpl. rewrite set_fresh.
    + rewrite IH; [by rewrite <- app_assoc|].
      unfold keys. rewrite map_app. simpl. by rewrite <- app_assoc.
    + apply NoDup_app in Hd as (_ & Hd & _). intros Hk.
      apply (Hd k Hk). left.
Qed.

(** [dict(pairs)] has one entry for each name. *)
Lemma of_pairs_NoDup ps : NoDup (keys (of_pairs ps)).
Proof. apply (fold_keys_NoDup ps []). constructor. Qed.

(** The entry of a name holds the value of the last pair with it. *)
Lemma of_pairs_get ps k : get k (of_pairs ps) = get k (rev ps).
Proof.
  unfold of_pairs. change (fun d kv => set (fst kv) (snd kv) d) with add.
  rewrite fold_get. destruct (get k (rev ps)); reflexivity.
Qed.

Lemma of_pairs_elem_of ps k v :
  (k, v) ∈ of_pairs ps <-> get k (rev ps) = Some v.
Proof. rewrite <- of_pairs_get. apply elem_of_get, of_pairs_NoDup. Qed.

(** Pairs whose names differ are all kept, in their order. *)
Lemma of_pairs_distinct ps : NoDup ps.*1 -> of_pairs ps = ps.
Proof. intros Hps. apply (fold_distinct ps []). exact Hps. Qed.

(** A dictionary cannot hold two entries under one name. *)
Lemma one_entry_per_name ps k v1 v2 :
  (k, v1) ∈ of_pairs ps -> (k, v2) ∈ of_pairs ps -> v1 = v2.
Proof. rewrite !of_pairs_elem_of. congruence. Qed.

End PyDictFacts.

(** ** The items of a header list *)

Module ItemsFacts.
Import PyDict.

Lemma get_merge_item k v d k' :
  get k' (merge_item k v d)
  = if String.eqb k' k then join_more (get k d) v else get k' d.
Proof.
  induction d as [|[k0 v0] r IH]; simpl.
  - destruct (String.eqb k' k); reflexivity.
  - destruct (String.eqb_spec k k0) as [->|Hne]; simpl.
    + destruct (String.eqb k' k0); reflexivity.
    + rewrite IH. destruct (String.eqb_spec k' k0) as [->|].
      * destruct (String.eqb_spec k0 k); congruence.
      * reflexivity.
Qed.

Lemma keys_merge_item k v d :
  keys (merge_item k v d)
  = match get k d with Some _ => keys d | None => keys d ++ [k] end.
Proof.
  induction d as [|[k0 v0] r IH]; simpl; [reflexivity|].
  destruct (String.eqb_spec k k0) as [->|Hne]; simpl; [reflexivity|].
  rewrite IH. destruct (get k r); reflexivity.
Qed.

Lemma merge_item_NoDup k v d : NoDup (keys d) -> NoDup (keys (merge_item k v d)).
Proof.
  intros Hd. rewrite keys_merge_item. destruct (get k d) eqn:Hg; [assumption|].
  apply PyDictFacts.get_None_keys in Hg.
  apply NoDup_app. split; [assumption|]. split; [|apply NoDup_singleton].
  intros x Hx ->%list_elem_of_singleton. contradiction.
Qed.

Lemma merge_item_fresh k v d : k ∉ keys d -> merge_item k v d = d ++ [(k, v)].
Proof.
  induction d as [|[k0 v0] r IH]; simpl; [reflexivity|].
  intros [Hne Hk]%not_elem_of_cons.
  destruct (String.eqb_spec k k0) as [->|_]; [congruence|].
  by rewrite IH.
Qed.

Lemma merge_fold_NoDup h d :
  NoDup (keys d) -> NoDup (keys (fold_left merge_header h d)).
Proof.
  revert d. induction h as [|[k v] r IH]; simpl; [auto|].
  intros d Hd. apply IH. by apply merge_item_NoDup.
Qed.

Lemma merge_fold_get h d k :
  get k (fold_left merge_header h d)
  = fold_left join_more (values_of k h) (get k d).
Proof.
  revert d. induction h as [|[k0 v0] r IH]; intros d; [reflexivity|].
  cbn [fold_left]. rewrite IH.
  change (merge_header d (k0, v0)) with (merge_item (lower k0) v0 d).
  rewrite get_merge_item. unfold values_of. simpl.
  rewrite (String.eqb_sym k (lower k0)).
  destruct (String.eqb_spec (lower k0) k) as [->|_]; reflexivity.
Qed.

(** [items()] has one item for each name. *)
Lemma httpx_items_NoDup h : NoDup (keys (httpx_items h)).
Proof. apply (merge_fold_NoDup h []). constructor. Qed.

(** The item of a name holds all the values given for it, joined. *)
Lemma httpx_items_get h k : get k (httpx_items h) = comma_join (values_of k h).
Proof. apply (merge_fold_get h [] k). Qed.

(** The dictionary made of the items is the items. *)
Lemma of_pairs_httpx_items h : of_pairs (httpx_items h) = httpx_items h.
Proof. apply PyDictFacts.of_pairs_distinct, httpx_items_NoDup. Qed.

Lemma merge_fold_distinct h d :
  NoDup (keys d ++ map (fun kv => lower kv.1) h) ->
  fold_left merge_header h d = d ++ map (fun kv => (lower kv.1, kv.2)) h.
Proof.
  revert d. induction h as [|[k v] r IH]; simpl; intros d Hd.
  - by rewrite app_nil_r.
  - change (merge_header d (k, v)) with (merge_item (lower k) v d).
    rewrite merge_item_fresh.
    + rewrite IH; [by rewrite <- app_assoc|].
      unfold keys. rewrite map_app. simpl. by rewrite <- app_assoc.
    + apply NoDup_app in Hd as (_ & Hd & _). intros Hk.
      apply (Hd (lower k) Hk). left.
Qed.

(** Names that differ also in lower case keep their pairs apart. *)
Lemma httpx_items_distinct h :
  NoDup (map (fun kv => lower kv.1) h) ->
  httpx_items h = map (fun kv => (lower kv.1, kv.2)) h.
Proof. intros Hh. apply (merge_fold_distinct h []). exact Hh. Qed.

End ItemsFacts.

Section ConstructionClaims.
Context `{Httpx}.

(** C4.  What [__init__] does with the limits: in the parameters of the
    connector of every transport it returns, [max_connections] is under
    [limit] and [max_keepalive_connections] under [limit_per_host], an
    absent cap being passed as [None] and not left out;
    [enable_cleanup_closed] is [True]; [keepalive_expiry] is under
    [ttl_dns_cache], the lifetime of the engine's DNS cache entries, and
    there is no [keepalive_timeout] entry, which is the connector's
    time-to-live of idle connections. *)
Theorem limits_to_connector_kwargs `{Engine} cfg kwargs w self w' :
  __init__ cfg kwargs w = (Ok self, w') ->
  let kw := conn_kwargs (_connector self) in
  kw !! "limit" = Some (py_opt_int (max_connections (limits cfg)))
  /\ kw !! "limit_per_host"
     = Some (py_opt_int (max_keepalive_connections (limits cfg)))
  /\ kw !! "enable_cleanup_closed" = Some (PyBool true)
  /\ kw !! "ttl_dns_cache" = Some (py_opt_float (keepalive_expiry (limits cfg)))
  /\ kw !! "keepalive_timeout" = None.
Proof.
  intros Hinit kw.
  destruct (init_ok_inv _ _ _ _ _ Hinit) as (Hkw & _).
  destruct (connector_kwargs_entries _ _ Hkw) as (? & ? & ? & _ & ? & ?).
  auto.
Qed.

(** C5.  What [__init__] does with a proxy.  A URL that the [Proxy]
    constructor refuses makes [__init__] raise that constructor's
    [ValueError].  A descriptor whose scheme is neither [http] nor [https]
    makes it raise the transport's own [ValueError], whose message ends
    with the [repr] of the scheme.  For scheme [http] or [https] the proxy
    block passes and puts the proxy URL under [proxy] and, when the proxy
    has headers, the dictionary of their items under [proxy_headers]
    (with [Headers.items()] as httpx has it, the items themselves: one
    entry for each name in lower case); these parameters
    then go to [aiohttp.TCPConnector], which has no such parameters, so
    that without HTTP/2 the construction raises a [TypeError].  In none of
    these cases is a transport returned or anything done to the engine. *)
Theorem http_proxy_refused_by_connector `{Engine} cfg kwargs w :
  (forall msg,
     proxy_refusal (proxy cfg) = Some msg ->
     __init__ cfg kwargs w = (Raise (ValueError msg), w))
  /\ (forall p,
        proxy_refusal (proxy cfg) = None ->
        coerce_proxy (proxy cfg) = Some p ->
        let scheme := url_scheme (proxy_url p) in
        (scheme <> "http" -> scheme <> "https" ->
         __init__ cfg kwargs w
         = (Raise (ValueError
                     ("AioHTTPTransport only supports HTTP proxies, not "
                      +:+ py_repr scheme +:+ ".")), w))
        /\ (scheme = "http" \/ scheme = "https" ->
            (exists kw,
               connector_kwargs cfg = Ok kw
               /\ kw !! "proxy" = Some (PyStr (url_str (proxy_url p)))
               /\ kw !! "proxy_headers"
                  = (if headers_bool (proxy_headers p)
                     then Some (PyDictV (PyDict.of_pairs
                                           (headers_items (proxy_headers p))))
                     else None)
               /\ ((forall h, headers_items h = httpx_items h) ->
                   kw !! "proxy_headers"
                   = (if headers_bool (proxy_headers p)
                      then Some (PyDictV (httpx_items (proxy_headers p)))
                      else None)))
            /\ (http2 cfg = false ->
                __init__ cfg kwargs w
                = (Raise (TypeError "aiohttp.TCPConnector"), w)))).
Proof.
  split.
  - intros msg Hmsg. apply init_raises_of_kwargs.
    unfold connector_kwargs. by rewrite Hmsg.
  - intros p Hacc Hp scheme. split.
    + intros Hhttp Hhttps. apply init_raises_of_kwargs.
      unfold connector_kwargs. rewrite Hacc, Hp. unfold add_proxy. fold scheme.
      destruct (proxy_scheme_ok scheme) eqn:Hok; [|reflexivity].
      apply proxy_scheme_ok_spec in Hok. tauto.
    + intros Hok%proxy_scheme_ok_spec.
      assert (exists kw, connector_kwargs cfg = Ok kw
                /\ kw !! "proxy" = Some (PyStr (url_str (proxy_url p)))
                /\ kw !! "proxy_headers"
                   = (if headers_bool (proxy_headers p)
                      then Some (PyDictV (PyDict.of_pairs
                                            (headers_items (proxy_headers p))))
                      else None)) as (kw & Hkw & Hurl & Hhdr).
      { unfold connector_kwargs. rewrite Hacc, Hp. unfold add_proxy. fold scheme.
        rewrite Hok. destruct (headers_bool (proxy_headers p));
          eexists; (split; [reflexivity|]); split.
        - rewrite lookup_insert_ne by discriminate. apply lookup_insert_eq.
        - apply lookup_insert_eq.
        - apply lookup_insert_eq.
        - rewrite lookup_insert_ne by discriminate. reflexivity. }
      split.
      { exists kw. repeat split; [exact Hkw|exact Hurl|exact Hhdr|].
        intros Hitems. rewrite Hhdr, Hitems.
        by rewrite ItemsFacts.of_pairs_httpx_items. }
      intros Hoff. apply (init_tcp_refused cfg kwargs w kw Hkw Hoff).
      unfold tcp_connector_accepts. by rewrite Hurl.
Qed.

(** C6.  With [http2=False] the extension plays no part: [__init__]
    executes no import and gives the same result whether or not the
    extension is installed.  With [http2=True] and the extension missing
    [__init__] raises: no transport is returned, and no connector and no
    session has been made; once the proxy block has passed, the import
    has been attempted and the exception is the [ImportError] that says
    to install [aiohttp_http2] with pip. *)
Theorem http2_extension_gate cfg kwargs w :
  (http2 cfg = false ->
     forall E1 E2 : Engine,
       @__init__ _ E1 cfg kwargs w = @__init__ _ E2 cfg kwargs w
       /\ count is_import (snd (@__init__ _ E1 cfg kwargs w)) = count is_import w)
  /\ (http2 cfg = true ->
      forall E : Engine, @aiohttp_http2 E = None ->
        exists e w',
          @__init__ _ E cfg kwargs w = (Raise e, w')
          /\ count is_connector_new w' = count is_connector_new w
          /\ count is_session_new w' = count is_session_new w
          /\ (forall kw, connector_kwargs cfg = Ok kw ->
                w' = w ++ [EvImport "aiohttp_http2"]
                /\ e = ImportError
                         ("Using HTTP/2 with aiohttp requires aiohttp_http2 to be installed. "
                          +:+ "Install it with `pip install aiohttp_http2`."))).
Proof.
  split.
  - intros Hoff E1 E2. unfold __init__, create_connector.
    rewrite Hoff. destruct (connector_kwargs cfg) as [kw|e]; simpl.
    + destruct (tcp_connector_accepts kw); simpl; [|split; reflexivity].
      rewrite count_snoc. simpl. split; [reflexivity|lia].
    + split; reflexivity.
  - intros Hon E Hext. unfold __init__, create_connector.
    rewrite Hon, Hext. destruct (connector_kwargs cfg) as [kw|e].
    + exists (ImportError http2_error), (w ++ [EvImport "aiohttp_http2"]).
      rewrite !count_snoc. simpl. repeat split; try lia; congruence.
    + exists e, w. repeat split; discriminate.
Qed.

(** Binding a name that is none of the parameters leaves the parameters
    as they are. *)
Lemma bind_other_config args st st' :
  st.1 = st'.1 ->
  (fold_left bind_keyword args st).1
  = (fold_left bind_keyword (List.filter (fun a => negb (is_other a)) args) st').1.
Proof.
  revert st st'. induction args as [|a args IH]; intros [cfg kw] [cfg' kw'] Heq;
    simpl in Heq; subst cfg'; [reflexivity|].
  destruct a; cbn [List.filter is_other negb fold_left]; apply IH;
    try reflexivity.
  simpl. by destruct cfg.
Qed.


End ConstructionClaims.

(** ** The session and the request path *)

Lemma requests_of_app w1 w2 :
  requests_of (w1 ++ w2) = requests_of w1 ++ requests_of w2.
Proof. apply omap_app. Qed.

Lemma sessions_of_app w1 w2 :
  sessions_of (w1 ++ w2) = sessions_of w1 ++ sessions_of w2.
Proof. apply omap_app. Qed.

Lemma set_session_same self : set_session self (_session self) = self.
Proof. destruct self. reflexivity. Qed.

(** The session check either finds the session or makes and stores one. *)
Lemma ensure_session_cases self w :
  (exists s, _session self = Some s /\ ensure_session self w = (self, w))
  \/ (_session self = None
      /\ let s := {| session_id := count is_session_new w;
                     session_kwargs := _session_kwargs self |} in
         ensure_session self w = (set_session self (Some s), w ++ [EvSessionNew s])).
Proof.
  unfold ensure_session. destruct (_session self) as [s|]; [left|right]; eauto.
Qed.

Lemma ensure_session_Some self w :
  exists s, _session (ensure_session self w).1 = Some s.
Proof.
  destruct (ensure_session_cases self w) as [(s & Hs & ->)|(_ & ->)]; simpl; eauto.
Qed.

Lemma ensure_session_fields self w :
  set_session (ensure_session self w).1 None = set_session self None.
Proof.
  destruct (ensure_session_cases self w) as [(s & Hs & ->)|(_ & ->)]; reflexivity.
Qed.

Section BridgeFacts.
Context `{Httpx} `{Engine}.

(** Receiving the engine's answer issues no further call and makes no
    session. *)
Lemma receive_log s call w :
  exists new, (receive s call w).2 = w ++ new
              /\ requests_of new = [] /\ sessions_of new = []
              /\ count is_session_close new = 0
              /\ count is_connector_close new = 0.
Proof.
  unfold receive. destruct (engine_request w s call) as [resp|exc]; simpl.
  - exists [EvRelease s].
    destruct (encode_headers (response_headers resp)); simpl; auto.
  - exists []. rewrite app_nil_r. auto.
Qed.

(** What the [try] statement adds to the log: the call, and the release
    of an answered one. *)
Lemma dispatch_log self call w s :
  _session self = Some s ->
  (dispatch self call w).2 = w ++ [EvRequest s call]
  \/ (dispatch self call w).2 = w ++ [EvRequest s call; EvRelease s].
Proof.
  intros Hs. unfold dispatch. rewrite Hs.
  destruct (session_closed _ s); [by left|].
  unfold receive.
  destruct (engine_request _ s call) as [resp|exc]; simpl; [|by left].
  right. rewrite <- app_assoc.
  destruct (encode_headers (response_headers resp)); reflexivity.
Qed.

(** A request whose stream has [__aiter__] gets no further than the
    construction of the reader. *)
Lemma handle_async_request_async self request w method chunks :
  convert_method (Request.method request) = Ok method ->
  Request.stream request = AsyncStream chunks ->
  handle_async_request self request w
  = (Raise (TypeError "aiohttp.StreamReader"),
     (ensure_session self w).1, (ensure_session self w).2).
Proof.
  intros Hm Hstream. unfold handle_async_request.
  destruct (ensure_session self w) as [self1 w1]. by rewrite Hm, Hstream.
Qed.

(** A request whose stream has none gets to the [try] statement: the
    session check, then the call through the session, which a closed
    session refuses and any other hands to the engine. *)
Lemma handle_async_request_sync self request w method chunks :
  convert_method (Request.method request) = Ok method ->
  Request.stream request = SyncStream chunks ->
  exists s,
    _session (ensure_session self w).1 = Some s
    /\ handle_async_request self request w
       = let call := engine_call request method in
         let sent := (ensure_session self w).2 ++ [EvRequest s call] in
         if session_closed sent s
         then (Raise (map_request_error session_closed_error),
               (ensure_session self w).1, sent)
         else let (r, w') := receive s call sent in
              (r, (ensure_session self w).1, w').
Proof.
  intros Hm Hstream. destruct (ensure_session_Some self w) as [s Hs]. exists s.
  split; [exact Hs|]. unfold handle_async_request.
  destruct (ensure_session self w) as [self1 w1]. simpl in *.
  rewrite Hm, Hstream. simpl. unfold dispatch. rewrite Hs.
  change (call_with request method None) with (engine_call request method).
  destruct (session_closed _ s); [reflexivity|].
  destruct (receive _ _ _). reflexivity.
Qed.

Lemma handle_async_request_fields self request w :
  set_session (handle_async_request self request w).1.2 None = set_session self None.
Proof.
  unfold handle_async_request.
  pose proof (ensure_session_fields self w) as Hf.
  destruct (ensure_session self w) as [self1 w1]. simpl in Hf.
  destruct (convert_method _); [|exact Hf].
  destruct (request_data _); [|exact Hf].
  destruct (dispatch _ _ _). exact Hf.
Qed.

Lemma ensure_session_requests self w :
  requests_of (ensure_session self w).2 = requests_of w.
Proof.
  destruct (ensure_session_cases self w) as [(s0 & _ & ->)|(_ & ->)]; simpl;
    [reflexivity|].
  rewrite requests_of_app. simpl. by rewrite app_nil_r.
Qed.

(** Exactly one engine call is made for a request whose stream has no
    [__aiter__], and none for one whose stream has. *)
Lemma handle_async_request_calls self request w method chunks :
  convert_method (Request.method request) = Ok method ->
  Request.stream request = SyncStream chunks ->
  requests_of (handle_async_request self request w).2
  = requests_of w ++ [engine_call request method].
Proof.
  intros Hm Hstream. unfold handle_async_request.
  destruct (ensure_session_Some self w) as [s Hs].
  pose proof (ensure_session_requests self w) as Hreq.
  destruct (ensure_session self w) as [self1 w1]. simpl in *.
  rewrite Hm, Hstream. simpl.
  change (call_with request method None) with (engine_call request method).
  pose proof (dispatch_log self1 (engine_call request method) w1 s Hs) as Hlog.
  destruct (dispatch self1 _ w1) as [r w2]. simpl in *.
  destruct Hlog as [->| ->]; rewrite requests_of_app, Hreq; reflexivity.
Qed.

Lemma handle_async_request_no_call self request w method chunks :
  convert_method (Request.method request) = Ok method ->
  Request.stream request = AsyncStream chunks ->
  requests_of (handle_async_request self request w).2 = requests_of w.
Proof.
  intros Hm Hstream.
  rewrite (handle_async_request_async self request w method chunks Hm Hstream).
  apply ensure_session_requests.
Qed.

Lemma encode_headers_ascii hs :
  encode_headers hs = if is_ascii_headers hs then Some hs else None.
Proof.
  induction hs as [|[k v] r IH]; simpl; [reflexivity|].
  unfold encode_ascii. rewrite IH.
  destruct (is_ascii k), (is_ascii v), (is_ascii_headers r); reflexivity.
Qed.

End BridgeFacts.

Lemma aclose_transport self w : (aclose self w).1 = set_session self None.
Proof.
  unfold aclose. destruct (_session self) eqn:Hs; simpl.
  - destruct (conn_has_close _); reflexivity.
  - rewrite <- Hs, set_session_same. destruct (conn_has_close _); reflexivity.
Qed.

Lemma aclose_log self w :
  (aclose self w).2
  = w ++ match _session self with Some s => [EvSessionClose s] | None => [] end
      ++ (if conn_has_close (_connector self)
          then [EvConnectorClose (_connector self)] else []).
Proof.
  unfold aclose. destruct (_session self); simpl;
    destruct (conn_has_close _); simpl; by rewrite ?app_nil_r, <- ?app_assoc.
Qed.

Section BridgeClaims.
Context `{Httpx} `{Engine}.

(** C2, as the code has it.  With [Headers.items()] as httpx has it, the
    headers handed to the engine by a request that gets to the engine call
    are the dictionary of the items: one entry for each name in lower
    case, holding every value the request gives for that name, in order
    and joined by a comma and a space.  No value is left out, but pairs
    that share a name arrive as one entry; pairs whose names differ also
    in lower case arrive one by one, in order, their names in lower
    case. *)
Theorem headers_forwarded_as_dict self request w method chunks :
  (forall h, headers_items h = httpx_items h) ->
  convert_method (Request.method request) = Ok method ->
  Request.stream request = SyncStream chunks ->
  let headers := Request.headers request in
  exists call,
    requests_of (handle_async_request self request w).2
    = requests_of w ++ [call]
    /\ call_headers call = httpx_items headers
    /\ NoDup (PyDict.keys (call_headers call))
    /\ (forall k, PyDict.get k (call_headers call) = comma_join (values_of k headers))
    /\ (NoDup (map (fun kv => lower kv.1) headers) ->
        call_headers call = map (fun kv => (lower kv.1, kv.2)) headers).
Proof.
  intros Hitems Hm Hstream headers.
  exists (engine_call request method).
  assert (Hcall : call_headers (engine_call request method) = httpx_items headers).
  { simpl. rewrite Hitems. apply ItemsFacts.of_pairs_httpx_items. }
  split; [by eapply handle_async_request_calls|].
  split; [exact Hcall|]. rewrite Hcall.
  split; [apply ItemsFacts.httpx_items_NoDup|].
  split; [intros k; apply ItemsFacts.httpx_items_get|].
  apply ItemsFacts.httpx_items_distinct.
Qed.

(** C7, at the engine's own timeouts.  For a request that gets to the
    engine call, an engine exception that is a [ClientError] or a
    [TimeoutError] leaves [handle_async_request] as one transport error
    with the exception's text and the exception as its cause, its kind
    found by the first [isinstance] test that holds.  The clause for
    [TimeoutError] comes after the clause for [ClientError]: a timeout that
    is not a [ClientError] gives [TimeoutException], but one that is both,
    as the engine's [ServerTimeoutError] is, is taken by the first clause
    and never gives [TimeoutException].  While the body is iterated either
    kind ends the iteration as a [NetworkError]. *)
Theorem engine_errors_mapped self request w method chunks exc s :
  convert_method (Request.method request) = Ok method ->
  Request.stream request = SyncStream chunks ->
  let self' := (ensure_session self w).1 in
  let sent := (ensure_session self w).2 ++ [EvRequest s (engine_call request method)] in
  _session self' = Some s ->
  session_closed sent s = false ->
  engine_request sent s (engine_call request method) = Fails exc ->
  isinstance exc "aiohttp.ClientError" = true
  \/ isinstance exc "asyncio.TimeoutError" = true ->
  (exists kind,
     handle_async_request self request w
     = (Raise (TransportError kind (exc_str exc) exc), self', sent)
     /\ (isinstance exc "aiohttp.ClientError" = true ->
         kind <> TimeoutException
         /\ kind =
              if isinstance exc "aiohttp.ClientConnectorError" then ConnectError
              else if isinstance exc "aiohttp.ClientOSError" then NetworkError
              else if isinstance exc "aiohttp.ServerDisconnectedError"
                   then RemoteProtocolError
              else if isinstance exc "aiohttp.ClientResponseError" then ProtocolError
              else if isinstance exc "aiohttp.ClientPayloadError" then ReadError
              else NetworkError)
     /\ (isinstance exc "aiohttp.ClientError" = false -> kind = TimeoutException))
  /\ (forall chunks' rest,
        Forall (fun chunk => chunk <> "") chunks' ->
        __aiter__ (map ReadChunk chunks' ++ ReadRaises exc :: rest)
        = (chunks', Some (TransportError NetworkError (exc_str exc) exc))).
Proof.
  intros Hm Hstream self' sent Hs Hopen Hfail Hexc. split.
  - destruct (handle_async_request_sync self request w method chunks Hm Hstream)
      as (s' & Hs' & ->).
    fold self' in Hs'. assert (s' = s) as -> by congruence.
    cbv zeta. fold sent. fold self'. rewrite Hopen. unfold receive. rewrite Hfail.
    unfold map_request_error, classify_client_error.
    destruct (isinstance exc "aiohttp.ClientError") eqn:Hclient.
    + eexists. split; [reflexivity|]. split; [|discriminate].
      intros _. split; [|reflexivity].
      repeat case_match; done.
    + destruct Hexc as [?|Ht]; [discriminate|]. rewrite Ht.
      eexists. split; [reflexivity|]. split; [discriminate|reflexivity].
  - intros chunks' rest Hchunks.
    induction Hchunks as [|chunk chunks' Hne _ IH]; simpl.
    + unfold map_stream_error.
      destruct Hexc as [Hc|Ht]; [by rewrite Hc|by rewrite Ht, orb_true_r].
    + rewrite IH. apply String.eqb_neq in Hne. by rewrite Hne.
Qed.

(** C9, at a request whose stream has [__aiter__].  Such a request never
    gets to the engine: constructing the reader for its body raises a
    [TypeError], after the session check and before any call.  A request
    whose stream has no [__aiter__] makes exactly one engine call, with
    [allow_redirects=False], and a response the engine gives through an
    open session is the response returned: the same status, the same
    headers as bytes and the engine's body stream, or a [UnicodeError]
    when a header is not ASCII. *)
Theorem redirects_not_followed self request w method chunks :
  convert_method (Request.method request) = Ok method ->
  (Request.stream request = AsyncStream chunks ->
   handle_async_request self request w
   = (Raise (TypeError "aiohttp.StreamReader"),
      (ensure_session self w).1, (ensure_session self w).2)
   /\ requests_of (handle_async_request self request w).2 = requests_of w)
  /\ (Request.stream request = SyncStream chunks ->
      let call := engine_call request method in
      call_allow_redirects call = false
      /\ requests_of (handle_async_request self request w).2 = requests_of w ++ [call]
      /\ forall s aiohttp_response,
           _session (ensure_session self w).1 = Some s ->
           let sent := (ensure_session self w).2 ++ [EvRequest s call] in
           session_closed sent s = false ->
           engine_request sent s call = Responds aiohttp_response ->
           (handle_async_request self request w).1.1
           = if is_ascii_headers (response_headers aiohttp_response)
             then Ok {| Response.status_code := status aiohttp_response;
                        Response.headers := response_headers aiohttp_response;
                        Response.stream := {| _content := content aiohttp_response |};
                        Response.extensions := [] |}
             else Raise UnicodeError).
Proof.
  intros Hm. split; intros Hstream.
  - split; [by eapply handle_async_request_async|].
    by eapply handle_async_request_no_call.
  - intros call. split; [reflexivity|].
    split; [by eapply handle_async_request_calls|].
    intros s resp Hs sent Hopen Hresp.
    destruct (handle_async_request_sync self request w method chunks Hm Hstream)
      as (s' & Hs' & ->).
    assert (s' = s) as -> by congruence.
    cbv zeta. fold call. fold sent. rewrite Hopen.
    unfold receive. rewrite Hresp, encode_headers_ascii.
    destruct (is_ascii_headers (response_headers resp)); reflexivity.
Qed.

End BridgeClaims.

(** ** Closing *)

Section LifeCycleFacts.
Context `{Httpx} `{Engine}.

(** No operation touches anything of the transport but [_session]. *)
Lemma apply_op_fields st op :
  set_session (apply_op st op).1 None = set_session st.1 None.
Proof.
  destruct st as [self w], op as [|request|]; simpl.
  - apply ensure_session_fields.
  - pose proof (handle_async_request_fields self request w) as Hf.
    destruct (handle_async_request self request w) as [[r self'] w']. exact Hf.
  - by rewrite aclose_transport.
Qed.

Lemma run_ops_fields ops st :
  set_session (run_ops ops st).1 None = set_session st.1 None.
Proof.
  unfold run_ops. revert st.
  induction ops as [|op ops IH]; intros st; [reflexivity|].
  cbn [fold_left]. rewrite IH. apply apply_op_fields.
Qed.

End LifeCycleFacts.

Section LifeCycleClaims.
Context `{Httpx} `{Engine}.


(** C8, at a request after [aclose].  Closing puts the transport back as
    [__init__] made it, whatever was done with it in between, and the next
    request does make a new session from the same session arguments.  But
    [aclose] has closed the one connector, and the new session is made on
    that connector: for a request that gets to the engine call, the
    session refuses it with a [RuntimeError] saying the session is closed,
    which no [except] clause maps.  The engine is never asked. *)
Theorem request_after_close_refused cfg kwargs w0 fresh w1 ops request
    method chunks :
  __init__ cfg kwargs w0 = (Ok fresh, w1) ->
  http2 cfg = false ->
  convert_method (Request.method request) = Ok method ->
  Request.stream request = SyncStream chunks ->
  let used := run_ops ops (fresh, w1) in
  let closed := aclose used.1 used.2 in
  let s := {| session_id := count is_session_new closed.2;
              session_kwargs := _session_kwargs fresh |} in
  let call := engine_call request method in
  closed.1 = fresh
  /\ handle_async_request closed.1 request closed.2
     = (Raise (Uncaught session_closed_error), set_session fresh (Some s),
        closed.2 ++ [EvSessionNew s; EvRequest s call]).
Proof.
  intros Hinit Hoff Hm Hstream used closed s call.
  destruct (init_ok_inv _ _ _ _ _ Hinit) as (_ & Hnone & Hconn & _).
  destruct (init_ok_tcp _ _ _ _ _ Hinit Hoff) as [Hclose _].
  assert (Hclosed : closed.1 = fresh).
  { unfold closed. rewrite aclose_transport. unfold used.
    rewrite run_ops_fields. simpl. rewrite <- Hnone. apply set_session_same. }
  split; [exact Hclosed|]. rewrite Hclosed.
  assert (Hused : _connector used.1 = _connector fresh)
    by exact (f_equal _connector (run_ops_fields ops (fresh, w1))).
  assert (Hlog : exists before,
            closed.2 = before ++ [EvConnectorClose (_connector fresh)]).
  { unfold closed. rewrite aclose_log, Hused, Hclose.
    eexists. by rewrite app_assoc. }
  destruct Hlog as [before Hlog].
  unfold handle_async_request, ensure_session. rewrite Hnone, Hm, Hstream.
  simpl. fold s. fold call.
  assert (Hrefused : session_closed
                       ((closed.2 ++ [EvSessionNew s]) ++ [EvRequest s call]) s
                     = true).
  { unfold session_closed, connector_closed. simpl. rewrite Hconn, Hlog.
    rewrite !existsb_app. simpl. by rewrite Nat.eqb_refl, !orb_true_r. }
  unfold dispatch. cbn [_session set_session].
  change (call_with request method None) with call.
  rewrite Hrefused, <- app_assoc. reflexivity.
Qed.

End LifeCycleClaims.

(** ** Concurrent first calls *)

Section SchedulingFacts.
Context `{Httpx} `{Engine}.

Lemma receive_log_cases s call w :
  (receive s call w).2 = w \/ (receive s call w).2 = w ++ [EvRelease s].
Proof.
  unfold receive. destruct (engine_request w s call) as [resp|exc]; simpl; auto.
  destruct (encode_headers (response_headers resp)); simpl; auto.
Qed.

(** Entering the [try] statement logs the call through the session held
    and leaves the task waiting for that session's answer, or over. *)
Lemma send_through self call w s0 :
  _session self = Some s0 ->
  (send self call w).2 = w ++ [EvRequest s0 call]
  /\ awaits s0 (send self call w).1.
Proof.
  unfold send. intros ->. destruct (session_closed _ s0); by split.
Qed.

Variable self0 : Transport.
Variable w0 : World.
Hypothesis fresh : _session self0 = None.

Local Abbreviation s0 := (first_session self0 w0).
Local Abbreviation opened := (set_session self0 (Some s0)).
Local Abbreviation settled := (settled self0 w0).
Local Abbreviation loop_invariant := (loop_invariant self0 w0).

(** The first block of the first call to run makes the session. *)
Lemma resume_first request :
  let '(task, self, w) := resume (Created request) self0 w0 in
  settled self w /\ awaits s0 task.
Proof.
  unfold resume, ensure_session. rewrite fresh.
  change {| session_id := _; session_kwargs := _ |} with s0.
  assert (Hset : settled opened (w0 ++ [EvSessionNew s0])).
  { split; [reflexivity|]. exists [EvSessionNew s0].
    repeat split. repeat constructor. }
  destruct (convert_method _) as [method|e]; [|by split].
  destruct (request_data _) as [data|e]; [|by split].
  destruct (send_through opened (call_with request method data)
              (w0 ++ [EvSessionNew s0]) s0 eq_refl) as [Hw Htask].
  destruct (send opened _ _) as [task w]. simpl in *. subst w.
  split; [|exact Htask].
  split; [reflexivity|].
  exists [EvSessionNew s0; EvRequest s0 (call_with request method data)].
  split; [by rewrite <- app_assoc|]. repeat split. repeat constructor.
Qed.

(** Any later block finds the session and makes none. *)
Lemma resume_settled task self w :
  settled self w -> awaits s0 task ->
  let '(task', self', w') := resume task self w in
  settled self' w' /\ awaits s0 task'.
Proof.
  intros Hset Htask.
  assert (Hs : _session self = Some s0) by (destruct Hset as [-> _]; reflexivity).
  assert (Hmore : forall ev, through s0 ev -> sessions_of [ev] = [] ->
                             settled self (w ++ [ev])).
  { intros ev Hev Hnone.
    destruct Hset as (Hself & new & -> & Hsess & Hthrough).
    split; [exact Hself|]. exists (new ++ [ev]).
    split; [by rewrite app_assoc|]. split.
    - by rewrite sessions_of_app, Hsess, Hnone.
    - apply Forall_app. split; [exact Hthrough|]. by repeat constructor. }
  destruct task as [request|s call|r|r]; simpl.
  - unfold ensure_session. rewrite Hs.
    destruct (convert_method _) as [method|e]; [|by split].
    destruct (request_data _) as [data|e]; [|by split].
    destruct (send_through self (call_with request method data) w s0 Hs)
      as [Hw Hawaits].
    destruct (send self _ w) as [task w']. simpl in *. subst w'.
    split; [|exact Hawaits]. by apply Hmore.
  - pose proof (receive_log_cases s call w) as Hlog.
    destruct (receive s call w) as [r w']. simpl in Hlog.
    split; [|by destruct (answered w s call)].
    destruct Hlog as [->| ->]; [exact Hset|]. by apply Hmore.
  - by split.
  - by split.
Qed.

Lemma step_invariant n schedule sys i :
  loop_invariant n schedule sys ->
  loop_invariant n (schedule ++ [i]) (step sys i).
Proof.
  intros (Hlen & Hawaits & Hstate). unfold step.
  destruct (tasks sys !! i) as [task|] eqn:Hi.
  - assert (Htask : awaits s0 task)
      by (eapply Forall_lookup_1; [exact Hawaits|exact Hi]).
    assert (Hnext : let '(task', self', w') := resume task (transport sys) (world sys) in
                    settled self' w' /\ awaits s0 task').
    { destruct Hstate as [(-> & -> & Hcreated & _)|Hset].
      - assert (Hc : is_created task)
          by (eapply Forall_lookup_1; [exact Hcreated|exact Hi]).
        destruct task; try contradiction. apply resume_first.
      - by apply resume_settled. }
    destruct (resume task (transport sys) (world sys)) as [[task' self'] w'].
    destruct Hnext as [Hset' Htask']. repeat split; simpl.
    + by rewrite length_insert.
    + by apply Forall_insert.
    + by right.
  - repeat split; [exact Hlen|exact Hawaits|].
    destruct Hstate as [(? & ? & ? & Hsched)|Hset]; [left|by right].
    repeat split; try assumption.
    apply Forall_app. split; [exact Hsched|]. constructor; [|constructor].
    apply lookup_ge_None in Hi. lia.
Qed.

Lemma run_snoc schedule i sys :
  run (schedule ++ [i]) sys = step (run schedule sys) i.
Proof. unfold run. by rewrite fold_left_app. Qed.

Lemma run_invariant requests schedule :
  loop_invariant (length requests) schedule
    (run schedule {| transport := self0; world := w0;
                     tasks := map Created requests |}).
Proof.
  induction schedule as [|i schedule IH] using rev_ind.
  - simpl. repeat split.
    + apply List.length_map.
    + apply Forall_forall. intros task [request [-> _]]%list_elem_of_fmap. exact I.
    + left. repeat split; [|constructor].
      apply Forall_forall. intros task [request [-> _]]%list_elem_of_fmap. exact I.
  - rewrite run_snoc. by apply step_invariant.
Qed.

End SchedulingFacts.

Lemma count_sessions_of w : count is_session_new w = length (sessions_of w).
Proof.
  unfold count, sessions_of.
  induction w as [|ev w IH]; simpl; [reflexivity|].
  destruct ev; simpl; rewrite ?IH; reflexivity.
Qed.

Section BlocksFacts.
Context `{Httpx} `{Engine}.

Lemma run_alone_finished n r self w :
  run_alone n (Finished r) self w = (Finished r, self, w).
Proof. induction n as [|n IH]; simpl; [reflexivity|exact IH]. Qed.

Lemma run_alone_S n task self w :
  run_alone (S n) task self w
  = let '(task', self', w') := resume task self w in run_alone n task' self' w'.
Proof. reflexivity. Qed.

(** The blocks of a call, run one after the other with nothing in between,
    are [handle_async_request]; there are at most three. *)
Lemma run_alone_handle self request w :
  run_alone 3 (Created request) self w
  = let '(r, self', w') := handle_async_request self request w in
    (Finished r, self', w').
Proof.
  rewrite run_alone_S. unfold handle_async_request. cbn [resume].
  destruct (ensure_session self w) as [self1 w1].
  destruct (convert_method _) as [method|e]; [|reflexivity].
  destruct (request_data _) as [data|e]; [|reflexivity].
  unfold send, dispatch. destruct (_session self1) as [s|]; [|reflexivity].
  destruct (session_closed _ s); [reflexivity|].
  rewrite run_alone_S. cbn [resume].
  destruct (receive s _ _) as [r w2].
  destruct (answered _ s _); reflexivity.
Qed.

End BlocksFacts.

Section SchedulingClaims.
Context `{Httpx} `{Engine}.

(** C1.  Calls of [handle_async_request] started together on a transport
    that has no session, two or more, run on one event loop in any
    interleaving of their blocks: at most one session is ever made; as
    soon as one of the calls has run its first block exactly one has been
    made and the transport holds it; and every call, suspended or logged,
    goes through that session.  Nothing is awaited between the check
    [self._session is None] and the assignment, which is what keeps a
    second caller from making a second session. *)
Theorem concurrent_first_calls_one_session self w requests schedule :
  _session self = None ->
  let sys := run schedule {| transport := self; world := w;
                              tasks := map Created requests |} in
  let s := first_session self w in
  count is_session_new (world sys) <= S (count is_session_new w)
  /\ Forall (awaits s) (tasks sys)
  /\ (exists new, world sys = w ++ new /\ Forall (through s) new)
  /\ ((exists i, i ∈ schedule /\ i < length requests) ->
      _session (transport sys) = Some s
      /\ exists new, world sys = w ++ new /\ sessions_of new = [s]).
Proof.
  intros Hfresh sys s.
  destruct (run_invariant self w Hfresh requests schedule)
    as (_ & Hawaits & Hstate).
  fold sys in Hawaits, Hstate. fold s in Hawaits.
  split; [|split; [exact Hawaits|split]].
  - destruct Hstate as [(_ & -> & _)|(_ & new & -> & Hsess & _)]; [lia|].
    rewrite !count_sessions_of, sessions_of_app, length_app, Hsess. simpl. lia.
  - destruct Hstate as [(_ & -> & _)|(_ & new & -> & _ & Hthrough)].
    + exists []. by rewrite app_nil_r.
    + by exists new.
  - intros (i & Hi & Hlt).
    destruct Hstate as [(_ & _ & _ & Hsched)|(-> & new & -> & Hsess & _)].
    + rewrite Forall_forall in Hsched. specialize (Hsched i Hi). lia.
    + split; [reflexivity|]. by exists new.
Qed.

End SchedulingClaims.

(** ** The claims at concrete inputs *)

(** Two calls interleaved block by block: one session. *)
Lemma concurrent_first_calls_witness :
  _session (transport interleaved) = Some (first_session plain_transport [])
  /\ exists new,
       world interleaved = [] ++ new
       /\ sessions_of new = [first_session plain_transport []].
Proof.
  refine (proj2 (proj2 (proj2
    (@concurrent_first_calls_one_session plain_httpx quiet_engine plain_transport []
       [sync_request []; sync_request [("Accept", "*/*")]] [0; 1; 1; 0; 0; 1]
       eq_refl))) _).
  exists 0. split; [left|simpl; lia].
Defined.

(** Two pairs named [X-Test] go in, one merged entry comes out. *)
Lemma duplicate_headers_merged :
  map call_headers
    (requests_of
       (@handle_async_request plain_httpx quiet_engine plain_transport
          (sync_request [("X-Test", "a"); ("X-Test", "b")]) []).2)
  = [[("x-test", "a, b")]].
Proof. reflexivity. Qed.

Lemma headers_forwarded_as_dict_witness :
  exists call,
    requests_of
      (@handle_async_request plain_httpx quiet_engine plain_transport
         (sync_request [("X-Test", "a"); ("Accept", "*/*"); ("X-Test", "b")]) []).2
    = [call]
    /\ call_headers call = [("x-test", "a, b"); ("accept", "*/*")].
Proof.
  destruct (@headers_forwarded_as_dict plain_httpx quiet_engine plain_transport
              (sync_request [("X-Test", "a"); ("Accept", "*/*"); ("X-Test", "b")])
              [] "GET" [] (fun h => eq_refl) eq_refl eq_refl)
    as (call & Hcalls & Hheaders & _).
  exists call. split; [exact Hcalls|]. rewrite Hheaders. reflexivity.
Defined.


Lemma limits_to_connector_kwargs_witness :
  conn_kwargs plain_connector !! "ttl_dns_cache" = Some (PyFloat (5 # 1))
  /\ conn_kwargs plain_connector !! "keepalive_timeout" = None.
Proof.
  destruct (@limits_to_connector_kwargs plain_httpx quiet_engine
              (@default_config plain_httpx) [] [] plain_transport
              [EvConnectorNew plain_connector] eq_refl)
    as (_ & _ & _ & Httl & Hidle).
  split; [exact Httl|exact Hidle].
Defined.

(** No transport is constructed with the proxy of the repository's own
    test, nor with a proxy descriptor that has headers; an [ftp] URL is
    turned down by [Proxy], a [socks5] one by the transport. *)
Lemma http_proxy_refused_by_connector_witness :
  @__init__ plain_httpx quiet_engine http_url_proxy_config [] []
  = (Raise (TypeError "aiohttp.TCPConnector"), [])
  /\ @__init__ plain_httpx quiet_engine ftp_proxy_config [] []
     = (Raise (ValueError
                 "Unknown scheme for proxy URL URL('ftp://proxy.example:21')"), [])
  /\ @__init__ plain_httpx quiet_engine socks_proxy_config [] []
     = (Raise (ValueError
                 "AioHTTPTransport only supports HTTP proxies, not 'socks5'."), [])
  /\ (exists kw,
        @connector_kwargs plain_httpx http_proxy_config = Ok kw
        /\ kw !! "proxy" = Some (PyStr "http://proxy.example:3128")
        /\ kw !! "proxy_headers"
           = Some (PyDictV [("proxy-authorization", "Basic dTpw")]))
  /\ @__init__ plain_httpx quiet_engine http_proxy_config [] []
     = (Raise (TypeError "aiohttp.TCPConnector"), []).
Proof.
  split; [|split; [|split]]; [| | |
    destruct (@http_proxy_refused_by_connector plain_httpx quiet_engine
                http_proxy_config [] []) as [_ Hp];
    destruct (Hp http_proxy eq_refl eq_refl) as [_ Hgood];
    destruct (Hgood (or_introl eq_refl)) as [(kw & Hkw & Hurl & _ & Hhdr) Hinit];
    split; [exists kw; split; [exact Hkw|split; [exact Hurl|]];
            exact (Hhdr (fun h => eq_refl))
           |exact (Hinit eq_refl)]].
  - destruct (@http_proxy_refused_by_connector plain_httpx quiet_engine
                http_url_proxy_config [] []) as [_ Hp].
    destruct (Hp (@Proxy_of_url plain_httpx (inl "http://example.org"))
                eq_refl eq_refl) as [_ Hgood].
    exact (proj2 (Hgood (or_introl eq_refl)) eq_refl).
  - destruct (@http_proxy_refused_by_connector plain_httpx quiet_engine
                ftp_proxy_config [] []) as [Hrefused _].
    exact (Hrefused _ eq_refl).
  - destruct (@http_proxy_refused_by_connector plain_httpx quiet_engine
                socks_proxy_config [] []) as [_ Hp].
    destruct (Hp (@Proxy_of_url plain_httpx (inl "socks5://proxy.example:1080"))
                eq_refl eq_refl) as [Hbad _].
    apply Hbad; discriminate.
Defined.

Lemma http2_extension_gate_witness :
  @__init__ plain_httpx quiet_engine (with_http2 (@default_config plain_httpx) false) [] []
  = @__init__ plain_httpx (constant_engine (Some true) (Responds ok_response))
      (with_http2 (@default_config plain_httpx) false) [] []
  /\ exists e w,
       @__init__ plain_httpx quiet_engine
         (with_http2 (@default_config plain_httpx) true) [] [] = (Raise e, w)
       /\ count is_session_new w = 0.
Proof.
  destruct (@http2_extension_gate plain_httpx
              (with_http2 (@default_config plain_httpx) false) [] []) as [Hoff _].
  destruct (@http2_extension_gate plain_httpx
              (with_http2 (@default_config plain_httpx) true) [] []) as [_ Hon].
  split.
  - exact (proj1 (Hoff eq_refl quiet_engine
                    (constant_engine (Some true) (Responds ok_response)))).
  - destruct (Hon eq_refl quiet_engine eq_refl) as (e & w & Hinit & _ & Hsess & _).
    exists e, w. split; [exact Hinit|exact Hsess].
Defined.

(** The engine's socket timeout comes out as a [NetworkError]; a refused
    connection as a [ConnectError]. *)
Lemma engine_errors_mapped_witness :
  (@handle_async_request plain_httpx (constant_engine None (Fails server_timeout))
     plain_transport (sync_request []) []).1.1
  = Raise (TransportError NetworkError (exc_str server_timeout) server_timeout)
  /\ (@handle_async_request plain_httpx (constant_engine None (Fails connection_refused))
        plain_transport (sync_request []) []).1.1
     = Raise (TransportError ConnectError (exc_str connection_refused)
                connection_refused)
  /\ __aiter__ [ReadChunk "partial body"; ReadRaises server_disconnected]
     = (["partial body"],
        Some (TransportError NetworkError (exc_str server_disconnected)
                server_disconnected)).
Proof.
  split; [|split].
  - destruct (@engine_errors_mapped plain_httpx
                (constant_engine None (Fails server_timeout))
                plain_transport (sync_request []) [] "GET" [] server_timeout
                (first_session plain_transport [])
                eq_refl eq_refl eq_refl eq_refl eq_refl (or_introl eq_refl))
      as [(kind & Hhandle & Hkind & _) _].
    rewrite Hhandle, (proj2 (Hkind eq_refl)). reflexivity.
  - destruct (@engine_errors_mapped plain_httpx
                (constant_engine None (Fails connection_refused))
                plain_transport (sync_request []) [] "GET" [] connection_refused
                (first_session plain_transport [])
                eq_refl eq_refl eq_refl eq_refl eq_refl (or_introl eq_refl))
      as [(kind & Hhandle & Hkind & _) _].
    rewrite Hhandle, (proj2 (Hkind eq_refl)). reflexivity.
  - destruct (@engine_errors_mapped plain_httpx
                (constant_engine None (Fails server_disconnected))
                plain_transport (sync_request []) [] "GET" [] server_disconnected
                (first_session plain_transport [])
                eq_refl eq_refl eq_refl eq_refl eq_refl (or_introl eq_refl))
      as [_ Hiter].
    apply (Hiter ["partial body"] []). repeat constructor. discriminate.
Defined.

(** A request, a close, and a request again: the second is refused by
    its own new session. *)
Lemma request_after_close_refused_witness :
  let closed :=
    @run_ops plain_httpx quiet_engine [OpRequest (sync_request []); OpClose]
      (plain_transport, [EvConnectorNew plain_connector]) in
  (@handle_async_request plain_httpx quiet_engine closed.1 (sync_request [])
     closed.2).1.1
  = Raise (Uncaught session_closed_error).
Proof.
  destruct (@request_after_close_refused plain_httpx quiet_engine
              (@default_config plain_httpx) [] [] plain_transport
              [EvConnectorNew plain_connector] [OpRequest (sync_request [])]
              (sync_request []) "GET" [] eq_refl eq_refl eq_refl eq_refl)
    as (_ & Hhandle).
  cbv zeta. unfold run_ops. cbn [fold_left].
  change (fold_left apply_op [] ?st) with st in Hhandle.
  exact (f_equal (fun x => x.1.1) Hhandle).
Defined.

(** The plain request of a client never gets to the engine; one without
    [__aiter__] gets the engine's 302 back as it is. *)
Lemma redirects_not_followed_witness :
  (@handle_async_request plain_httpx (constant_engine None (Responds redirect_response))
     plain_transport (get_request []) []).1.1
  = Raise (TypeError "aiohttp.StreamReader")
  /\ (@handle_async_request plain_httpx (constant_engine None (Responds redirect_response))
        plain_transport (sync_request []) []).1.1
     = Ok {| Response.status_code := 302;
             Response.headers := [("Location", "https://example.org/next")];
             Response.stream := {| _content := [] |};
             Response.extensions := [] |}.
Proof.
  split.
  - destruct (@redirects_not_followed plain_httpx
                (constant_engine None (Responds redirect_response))
                plain_transport (get_request []) [] "GET" [] eq_refl)
      as [Hasync _].
    by rewrite (proj1 (Hasync eq_refl)).
  - destruct (@redirects_not_followed plain_httpx
                (constant_engine None (Responds redirect_response))
                plain_transport (sync_request []) [] "GET" [] eq_refl)
      as [_ Hsync].
    destruct (Hsync eq_refl) as (_ & _ & Hresp).
    rewrite (Hresp (first_session plain_transport []) redirect_response
               eq_refl eq_refl eq_refl).
    reflexivity.
Defined.

(** * Further properties of the code *)

(** ** The response body *)

(** The body ends at the first empty read: the chunks before it are
    yielded, in order, and what the engine would give after it is never
    read.  A script that runs out reads as empty. *)
Theorem aiter_ends_at_empty_read chunks rest :
  Forall (fun chunk => chunk <> "") chunks ->
  __aiter__ (map ReadChunk chunks) = (chunks, None)
  /\ __aiter__ (map ReadChunk chunks ++ ReadChunk "" :: rest) = (chunks, None).
Proof.
  intros Hchunks. induction Hchunks as [|chunk chunks Hne _ [IH1 IH2]]; simpl.
  - split; reflexivity.
  - rewrite IH1, IH2. apply String.eqb_neq in Hne. rewrite Hne. split; reflexivity.
Qed.

Lemma aiter_ends_at_empty_read_witness :
  __aiter__ [ReadChunk "he"; ReadChunk "llo"; ReadChunk ""; ReadChunk "never read"]
  = (["he"; "llo"], None).
Proof.
  apply (proj2 (aiter_ends_at_empty_read ["he"; "llo"] [ReadChunk "never read"]
                  ltac:(repeat constructor; discriminate))).
Defined.

(** Whatever the engine's reads give, no chunk that is yielded is empty,
    and no more chunks are yielded than reads were scripted. *)
Theorem aiter_chunks_nonempty content :
  Forall (fun chunk => chunk <> "") (__aiter__ content).1
  /\ length (__aiter__ content).1 <= length content.
Proof.
  induction content as [|[chunk|exc] rest [IH1 IH2]]; simpl.
  - split; [constructor|lia].
  - destruct (String.eqb_spec chunk "") as [->|Hne]; simpl.
    + split; [constructor|lia].
    + destruct (__aiter__ rest) as [chunks e]. simpl in *.
      split; [by constructor|lia].
  - split; [constructor|lia].
Qed.

Section FurtherBridge.
Context `{Httpx} `{Engine}.

(** ** Exceptions that are not the engine's *)

(** An exception that is neither a [ClientError] nor a [TimeoutError]
    passes through [handle_async_request] and through the body iteration
    as it is, not wrapped in a transport error, unless it is one Python
    itself replaces: a [StopIteration] leaving a coroutine, a
    [StopIteration] or [StopAsyncIteration] leaving an async generator. *)
Theorem other_exceptions_pass self request w method chunks exc :
  convert_method (Request.method request) = Ok method ->
  Request.stream request = SyncStream chunks ->
  isinstance exc "aiohttp.ClientError" = false ->
  isinstance exc "asyncio.TimeoutError" = false ->
  isinstance exc "StopIteration" = false ->
  let call := engine_call request method in
  (forall s,
     _session (ensure_session self w).1 = Some s ->
     session_closed ((ensure_session self w).2 ++ [EvRequest s call]) s = false ->
     engine_request ((ensure_session self w).2 ++ [EvRequest s call]) s call
     = Fails exc ->
     handle_async_request self request w
     = (Raise (Uncaught exc), (ensure_session self w).1,
        (ensure_session self w).2 ++ [EvRequest s call]))
  /\ (isinstance exc "StopAsyncIteration" = false ->
      forall chunks' rest,
        Forall (fun chunk => chunk <> "") chunks' ->
        __aiter__ (map ReadChunk chunks' ++ ReadRaises exc :: rest)
        = (chunks', Some (Uncaught exc))).
Proof.
  intros Hm Hstream Hclient Htimeout Hstop call. split.
  - intros s Hs Hopen Hfail.
    destruct (handle_async_request_sync self request w method chunks Hm Hstream)
      as (s' & Hs' & ->).
    assert (s' = s) as -> by congruence.
    cbv zeta. fold call. rewrite Hopen. unfold receive. rewrite Hfail.
    unfold map_request_error. by rewrite Hclient, Htimeout, Hstop.
  - intros Hasync chunks' rest Hchunks.
    induction Hchunks as [|chunk chunks' Hne _ IH]; simpl.
    + unfold map_stream_error. by rewrite Hclient, Htimeout, Hstop, Hasync.
    + rewrite IH. apply String.eqb_neq in Hne. by rewrite Hne.
Qed.

(** ** The request path *)

(** What [handle_async_request] adds to the log after the session check:
    no session, no close. *)
Lemma handle_async_request_log self request w :
  (handle_async_request self request w).1.2 = (ensure_session self w).1
  /\ exists new,
       (handle_async_request self request w).2 = (ensure_session self w).2 ++ new
       /\ sessions_of new = []
       /\ count is_session_close new = 0
       /\ count is_connector_close new = 0
       /\ forall s, _session (ensure_session self w).1 = Some s ->
                    Forall (through s) new.
Proof.
  unfold handle_async_request.
  destruct (ensure_session self w) as [self1 w1] eqn:Hens. simpl.
  destruct (convert_method _) as [method|e]; simpl;
    [destruct (request_data _) as [data|e]; simpl|].
  - pose proof (dispatch_log self1 (call_with request method data) w1) as Hlog.
    unfold dispatch in *. destruct (_session self1) as [s|] eqn:Hs; simpl.
    + specialize (Hlog s eq_refl).
      destruct (if session_closed _ s then _ else _) as [r w']. simpl in *.
      split; [reflexivity|].
      destruct Hlog as [Hw|Hw]; rewrite Hw.
      * exists [EvRequest s (call_with request method data)].
        repeat split. intros ? [= <-]. repeat constructor.
      * exists [EvRequest s (call_with request method data); EvRelease s].
        repeat split. intros ? [= <-]. repeat constructor.
    + split; [reflexivity|]. exists []. rewrite app_nil_r. repeat split.
      discriminate.
  - split; [reflexivity|]. exists []. rewrite app_nil_r. repeat split.
    intros; constructor.
  - split; [reflexivity|]. exists []. rewrite app_nil_r. repeat split.
    intros; constructor.
Qed.

(** A request on a transport that holds a session leaves that session in
    place and makes no other, whether the engine answers or raises: a
    failed request does not cost the next one its session. *)
Theorem request_keeps_session self request w s :
  _session self = Some s ->
  (handle_async_request self request w).1.2 = self
  /\ exists new,
       (handle_async_request self request w).2 = w ++ new
       /\ sessions_of new = []
       /\ Forall (through s) new.
Proof.
  intros Hs.
  destruct (handle_async_request_log self request w) as (Hself & new & Hw & Hsess & _ & _ & Hthrough).
  assert (Hens : ensure_session self w = (self, w))
    by (unfold ensure_session; by rewrite Hs).
  rewrite Hens in *. simpl in *. split; [exact Hself|].
  exists new. repeat split; auto.
Qed.

(** A [bytes] method that is not ASCII makes [handle_async_request]
    raise before any engine call, yet after the session check has made the
    session; a [str] method and an ASCII [bytes] method reach the engine
    with the same characters when the stream has no [__aiter__], and raise
    the reader's [TypeError] before any engine call when it has. *)
Theorem method_conversion self request w :
  (forall b, Request.method request = MethodBytes b -> is_ascii b = false ->
     handle_async_request self request w
     = (Raise UnicodeError, (ensure_session self w).1, (ensure_session self w).2)
     /\ requests_of (handle_async_request self request w).2 = requests_of w)
  /\ (forall m,
        Request.method request = MethodStr m
        \/ (Request.method request = MethodBytes m /\ is_ascii m = true) ->
        (forall chunks, Request.stream request = SyncStream chunks ->
           exists call,
             requests_of (handle_async_request self request w).2
             = requests_of w ++ [call]
             /\ call_method call = m)
        /\ (forall chunks, Request.stream request = AsyncStream chunks ->
              (handle_async_request self request w).1.1
              = Raise (TypeError "aiohttp.StreamReader")
              /\ requests_of (handle_async_request self request w).2
                 = requests_of w)).
Proof.
  split.
  - intros b Hb Hascii.
    assert (Hraise : handle_async_request self request w
              = (Raise UnicodeError, (ensure_session self w).1, (ensure_session self w).2)).
    { unfold handle_async_request. destruct (ensure_session self w) as [self1 w1].
      rewrite Hb. unfold convert_method, decode_ascii. by rewrite Hascii. }
    split; [exact Hraise|]. rewrite Hraise. simpl.
    apply ensure_session_requests.
  - intros m Hm.
    assert (Hconv : convert_method (Request.method request) = Ok m).
    { destruct Hm as [->|[-> Hascii]]; [reflexivity|].
      unfold convert_method, decode_ascii. by rewrite Hascii. }
    split; intros chunks Hstream.
    + exists (engine_call request m). split; [|reflexivity].
      by eapply handle_async_request_calls.
    + rewrite (handle_async_request_async self request w m chunks Hconv Hstream).
      split; [reflexivity|]. simpl. apply ensure_session_requests.
Qed.

(** No request body reaches the engine.  A stream with [__aiter__] stops
    the request at the construction of the reader, whatever its chunks,
    with the session made and no engine call; a stream without is not
    read, and the one call made carries no data.  So every engine call a
    request makes has [data=None]. *)
Theorem request_body_not_sent self request w :
  (forall method chunks,
     convert_method (Request.method request) = Ok method ->
     Request.stream request = AsyncStream chunks ->
     handle_async_request self request w
     = (Raise (TypeError "aiohttp.StreamReader"),
        (ensure_session self w).1, (ensure_session self w).2))
  /\ (forall method chunks,
        convert_method (Request.method request) = Ok method ->
        Request.stream request = SyncStream chunks ->
        exists call,
          requests_of (handle_async_request self request w).2
          = requests_of w ++ [call]
          /\ call_data call = None)
  /\ exists calls,
       requests_of (handle_async_request self request w).2 = requests_of w ++ calls
       /\ Forall (fun call => call_data call = None) calls.
Proof.
  split; [|split].
  - intros method chunks. apply handle_async_request_async.
  - intros method chunks Hm Hstream. exists (engine_call request method).
    split; [by eapply handle_async_request_calls|reflexivity].
  - destruct (convert_method (Request.method request)) as [method|e] eqn:Hm.
    + destruct (Request.stream request) as [chunks|chunks] eqn:Hstream.
      * exists []. split; [|constructor].
        rewrite (handle_async_request_async self request w method chunks Hm Hstream).
        simpl. by rewrite ensure_session_requests, app_nil_r.
      * exists [engine_call request method].
        split; [by eapply handle_async_request_calls|by repeat constructor].
    + exists []. split; [|constructor]. unfold handle_async_request.
      pose proof (ensure_session_requests self w) as Hreq.
      destruct (ensure_session self w) as [self1 w1]. rewrite Hm. simpl in *.
      by rewrite Hreq, app_nil_r.
Qed.

(** A call the engine answers is released before [handle_async_request]
    returns, also when the conversion of the headers raises; a call the
    engine fails is not, and neither is one a closed session refuses. *)
Theorem response_released self request w method chunks s :
  convert_method (Request.method request) = Ok method ->
  Request.stream request = SyncStream chunks ->
  _session (ensure_session self w).1 = Some s ->
  let call := engine_call request method in
  let sent := (ensure_session self w).2 ++ [EvRequest s call] in
  (handle_async_request self request w).2
  = if session_closed sent s then sent
    else match engine_request sent s call with
         | Responds _ => sent ++ [EvRelease s]
         | Fails _ => sent
         end.
Proof.
  intros Hm Hstream Hs call sent.
  destruct (handle_async_request_sync self request w method chunks Hm Hstream)
    as (s' & Hs' & ->).
  assert (s' = s) as -> by congruence.
  cbv zeta. fold call. fold sent.
  destruct (session_closed sent s); [reflexivity|]. unfold receive.
  destruct (engine_request sent s call) as [resp|exc]; [|reflexivity].
  destruct (encode_headers (response_headers resp)); reflexivity.
Qed.

End FurtherBridge.

(** ** Response headers *)

(** The header pairs of a response decode back to the engine's text
    headers, pair by pair and in order; the conversion fails exactly when
    a name or a value is not ASCII. *)
Theorem response_headers_round_trip hs :
  (forall bs, encode_headers hs = Some bs ->
     Forall2 (fun b h => decode_ascii b.1 = Some h.1 /\ decode_ascii b.2 = Some h.2)
             bs hs)
  /\ (encode_headers hs = None
      <-> Exists (fun h => is_ascii h.1 = false \/ is_ascii h.2 = false) hs).
Proof.
  induction hs as [|[k v] r [IH1 IH2]]; simpl.
  - split.
    + intros bs [= <-]. constructor.
    + split; [discriminate|intros []%Exists_nil].
  - unfold encode_ascii, decode_ascii in *.
    destruct (is_ascii k) eqn:Hk, (is_ascii v) eqn:Hv;
      try (split; [discriminate|split; [intros _; left; simpl; auto|reflexivity]]).
    destruct (encode_headers r) as [bs'|].
    + split.
      * intros bs [= <-]. constructor; [simpl; by rewrite Hk, Hv|by apply IH1].
      * split; [discriminate|].
        intros [[?|?]|Hr]%Exists_cons; simpl in *; try congruence.
        by apply IH2 in Hr.
    + split; [discriminate|]. split; [|reflexivity].
      intros _. right. by apply IH2.
Qed.

(** ** The life cycle over any sequence of operations *)

Section FurtherLifeCycle.
Context `{Httpx} `{Engine}.

Lemma ensure_session_live self w :
  live (ensure_session self w).1 = 1
  /\ exists new,
       (ensure_session self w).2 = w ++ new
       /\ count is_session_new new + live self = 1
       /\ count is_session_close new = 0
       /\ count is_connector_close new = 0
       /\ Forall (fun s => session_kwargs s = _session_kwargs self) (sessions_of new).
Proof.
  unfold live.
  destruct (ensure_session_cases self w) as [(s & Hs & ->)|(Hs & ->)];
    simpl; rewrite Hs; (split; [reflexivity|]).
  - exists []. rewrite app_nil_r. repeat split. constructor.
  - eexists. split; [reflexivity|]. repeat split. repeat constructor.
Qed.

Lemma count_sessions_none new : sessions_of new = [] -> count is_session_new new = 0.
Proof. intros Hs. by rewrite count_sessions_of, Hs. Qed.

(** What one operation does to the log and to the session. *)
Lemma apply_op_effect self w op :
  _session_kwargs (apply_op (self, w) op).1 = _session_kwargs self
  /\ _connector (apply_op (self, w) op).1 = _connector self
  /\ exists new,
       (apply_op (self, w) op).2 = w ++ new
       /\ count is_session_new new + live self
          = count is_session_close new + live (apply_op (self, w) op).1
       /\ count is_connector_close new
          = (if is_close_op op && conn_has_close (_connector self) then 1 else 0)
       /\ Forall (fun s => session_kwargs s = _session_kwargs self) (sessions_of new).
Proof.
  pose proof (apply_op_fields (self, w) op) as Hfields.
  split; [exact (f_equal _session_kwargs Hfields)|].
  split; [exact (f_equal _connector Hfields)|].
  clear Hfields.
  destruct op as [|request|]; simpl.
  - destruct (ensure_session_live self w) as (Hlive & new & Hw & Hnew & Hclose & Hcc & Hkw).
    exists new. unfold __aenter__. rewrite Hlive, Hclose, Hcc.
    repeat split; auto; lia.
  - destruct (ensure_session_live self w) as (Hlive & new & Hw & Hnew & Hclose & Hcc & Hkw).
    destruct (handle_async_request_log self request w)
      as (Hself & new' & Hw' & Hsess & Hclose' & Hcc' & _).
    destruct (handle_async_request self request w) as [[r self'] w'].
    simpl in *. subst self'. rewrite Hw' , Hw, <- app_assoc.
    exists (new ++ new').
    rewrite !count_app, sessions_of_app, Hsess, app_nil_r, Hlive, Hclose, Hclose',
      Hcc, Hcc', (count_sessions_none new' Hsess).
    repeat split; auto; lia.
  - rewrite aclose_log, aclose_transport. unfold live. simpl.
    eexists. split; [reflexivity|].
    destruct (_session self), (conn_has_close (_connector self));
      unfold count; simpl; repeat split; constructor.
Qed.

(** No session leaks: over any sequence of operations every session made
    has been closed, but the one the transport holds.  So at most one
    session is alive at any time. *)
Theorem sessions_accounted ops self w :
  let after := run_ops ops (self, w) in
  count is_session_new after.2 + count is_session_close w + live self
  = count is_session_new w + count is_session_close after.2 + live after.1.
Proof.
  unfold run_ops. revert self w.
  induction ops as [|op ops IH]; intros self w; cbn [fold_left]; [simpl; lia|].
  destruct (apply_op_effect self w op) as (_ & _ & new & Hw & Hacc & _).
  destruct (apply_op (self, w) op) as [self1 w1]. simpl in *.
  specialize (IH self1 w1). cbv zeta in IH. subst w1.
  rewrite !count_app in IH. lia.
Qed.


(** Every session made on a transport, at first use or after a close, is
    made from the session arguments fixed by [__init__]: the one connector
    made there, no engine timeout, no automatic decompression, and the
    caller's [trust_env]. *)
Theorem sessions_use_construction_arguments cfg kwargs w0 self w ops :
  __init__ cfg kwargs w0 = (Ok self, w) ->
  exists new,
    (run_ops ops (self, w)).2 = w ++ new
    /\ Forall (fun s =>
                 session_kwargs s
                 = {| sk_connector := _connector self;
                      sk_timeout := {| total := None; connect := None;
                                       sock_connect := None; sock_read := None |};
                      sk_auto_decompress := false;
                      sk_trust_env := trust_env cfg |})
              (sessions_of new).
Proof.
  intros Hinit.
  assert (Hkw : _session_kwargs self
                = {| sk_connector := _connector self;
                     sk_timeout := no_timeout;
                     sk_auto_decompress := false;
                     sk_trust_env := trust_env cfg |}).
  { unfold __init__ in Hinit.
    destruct (connector_kwargs cfg) as [kw|e]; [|discriminate].
    destruct (create_connector (http2 cfg) kw w0) as [[c|e] w1]; [|discriminate].
    injection Hinit as <- <-. reflexivity. }
  change {| total := None; connect := None; sock_connect := None; sock_read := None |}
    with no_timeout.
  rewrite <- Hkw. clear Hinit Hkw. unfold run_ops. revert self w.
  induction ops as [|op ops IH]; intros self w; cbn [fold_left].
  - exists []. rewrite app_nil_r. split; [reflexivity|constructor].
  - destruct (apply_op_effect self w op) as (Hkw & _ & new & Hw & _ & _ & Hsess).
    destruct (apply_op (self, w) op) as [self1 w1]. simpl in *.
    destruct (IH self1 w1) as (new' & -> & Hsess'). subst w1.
    exists (new ++ new'). split; [by rewrite app_assoc|].
    rewrite sessions_of_app. apply Forall_app. split; [exact Hsess|].
    by rewrite <- Hkw.
Qed.


End FurtherLifeCycle.

(** ** Construction, further *)

Section FurtherConstruction.
Context `{Httpx} `{Engine}.

(** [__init__] reads of its parameters only [verify], [cert],
    [trust_env], [http2], [limits] and [proxy]: two calls that agree on
    these give the same result, whatever [http1] and [socket_options]
    are. *)
Theorem http1_and_socket_options_unused cfg cfg' kwargs kwargs' w :
  verify cfg = verify cfg' -> cert cfg = cert cfg' ->
  trust_env cfg = trust_env cfg' -> http2 cfg = http2 cfg' ->
  limits cfg = limits cfg' -> proxy cfg = proxy cfg' ->
  __init__ cfg kwargs w = __init__ cfg' kwargs' w.
Proof.
  destruct cfg, cfg'. simpl. intros -> -> -> -> -> ->. reflexivity.
Qed.

(** A successful [__init__] has made exactly one connector, of the HTTP/2
    class when [http2] is set and a [TCPConnector] otherwise, with the TLS
    context of the factory under [ssl] and [force_close] off; it has made
    no session, and the transport holds none. *)
Theorem construction_outcome cfg kwargs w self w' :
  __init__ cfg kwargs w = (Ok self, w') ->
  conn_class (_connector self)
  = (if http2 cfg then HTTP2ClientConnector else TCPConnector)
  /\ w' = w ++ (if http2 cfg then [EvImport "aiohttp_http2"] else [])
            ++ [EvConnectorNew (_connector self)]
  /\ _session self = None
  /\ conn_kwargs (_connector self) !! "ssl"
     = Some (PySSL (create_ssl_context (verify cfg) (cert cfg) (trust_env cfg)))
  /\ conn_kwargs (_connector self) !! "force_close" = Some (PyBool false).
Proof.
  intros Hinit.
  assert (Hkw : connector_kwargs cfg = Ok (conn_kwargs (_connector self)))
    by apply (init_ok_inv _ _ _ _ _ Hinit).
  assert (Hentries : conn_kwargs (_connector self) !! "ssl"
             = Some (PySSL (create_ssl_context (verify cfg) (cert cfg) (trust_env cfg)))
           /\ conn_kwargs (_connector self) !! "force_close" = Some (PyBool false)).
  { apply connector_kwargs_ok in Hkw as [_ Hkw].
    split; rewrite (add_proxy_keeps _ _ _ _ Hkw) by discriminate; reflexivity. }
  unfold __init__ in Hinit. rewrite Hkw in Hinit.
  unfold create_connector, new_connector in Hinit.
  destruct (http2 cfg);
    [destruct aiohttp_http2 as [hc|]; [|discriminate]
    |destruct (tcp_connector_accepts _); [|discriminate]];
    injection Hinit as <- <-; simpl in *;
    (split; [reflexivity|]); (split; [by rewrite <- ?app_assoc|]);
    (split; [reflexivity|exact Hentries]).
Qed.

(** The connector is given the six entries of the dictionary literal,
    [proxy] when there is a proxy and [proxy_headers] when the proxy has
    headers, and nothing else. *)
Theorem connector_kwargs_keys cfg kw :
  connector_kwargs cfg = Ok kw ->
  dom kw = base_keys ∪ proxy_keys (coerce_proxy (proxy cfg)).
Proof.
  intros [_ Hkw]%connector_kwargs_ok. unfold add_proxy, proxy_keys in *.
  assert (Hbase : forall c l, dom (base_connector_kwargs c l) = base_keys).
  { intros c l. unfold base_connector_kwargs, base_keys.
    rewrite dom_list_to_map_L. simpl. set_solver. }
  destruct (coerce_proxy (proxy cfg)) as [p|].
  - destruct (proxy_scheme_ok _); [|discriminate].
    destruct (headers_bool (proxy_headers p)); injection Hkw as <-;
      rewrite ?dom_insert_L, Hbase; set_solver.
  - injection Hkw as <-. rewrite Hbase. set_solver.
Qed.

End FurtherConstruction.

(** ** The further properties at concrete inputs *)

Lemma other_exceptions_pass_witness :
  (@handle_async_request plain_httpx (constant_engine None (Fails type_error))
     plain_transport (sync_request []) []).1.1
  = Raise (Uncaught type_error).
Proof.
  destruct (@other_exceptions_pass plain_httpx
              (constant_engine None (Fails type_error))
              plain_transport (sync_request []) [] "GET" [] type_error
              eq_refl eq_refl eq_refl eq_refl eq_refl) as [Hreq _].
  rewrite (Hreq (first_session plain_transport []) eq_refl eq_refl eq_refl).
  reflexivity.
Defined.

Lemma request_keeps_session_witness :
  (@handle_async_request plain_httpx (constant_engine None (Fails connection_refused))
     held_transport (sync_request []) []).1.2
  = held_transport.
Proof.
  exact (proj1 (@request_keeps_session plain_httpx
                  (constant_engine None (Fails connection_refused))
                  held_transport (sync_request []) []
                  (first_session plain_transport []) eq_refl)).
Defined.

Lemma method_conversion_witness :
  (@handle_async_request plain_httpx quiet_engine plain_transport
     latin_method_request []).1.1 = Raise UnicodeError
  /\ requests_of
       (@handle_async_request plain_httpx quiet_engine plain_transport
          latin_method_request []).2 = [].
Proof.
  destruct (@method_conversion plain_httpx quiet_engine plain_transport
              latin_method_request []) as [Hbad _].
  destruct (Hbad (String (ascii_of_nat 233) "T") eq_refl eq_refl) as [Hraise Hcalls].
  split; [by rewrite Hraise|exact Hcalls].
Defined.

Lemma request_body_not_sent_witness :
  @handle_async_request plain_httpx quiet_engine plain_transport upload_request []
  = (Raise (TypeError "aiohttp.StreamReader"),
     set_session plain_transport (Some (first_session plain_transport [])),
     [EvSessionNew (first_session plain_transport [])]).
Proof.
  exact (proj1 (@request_body_not_sent plain_httpx quiet_engine plain_transport
                  upload_request [])
           "POST" ["first"; "second"] eq_refl eq_refl).
Defined.

Lemma response_released_witness :
  (@handle_async_request plain_httpx quiet_engine plain_transport
     (sync_request []) []).2
  = [EvSessionNew (first_session plain_transport []);
     EvRequest (first_session plain_transport [])
       (@engine_call plain_httpx (sync_request []) "GET");
     EvRelease (first_session plain_transport [])].
Proof.
  rewrite (@response_released plain_httpx quiet_engine plain_transport
             (sync_request []) [] "GET" [] (first_session plain_transport [])
             eq_refl eq_refl eq_refl).
  reflexivity.
Defined.

Lemma response_headers_round_trip_witness :
  Forall2 (fun b h => decode_ascii b.1 = Some h.1 /\ decode_ascii b.2 = Some h.2)
    [("Location", "https://example.org/next")]
    [("Location", "https://example.org/next")].
Proof.
  exact (proj1 (response_headers_round_trip
                  [("Location", "https://example.org/next")]) _ eq_refl).
Defined.

Lemma sessions_use_construction_arguments_witness :
  exists new,
    (@run_ops plain_httpx quiet_engine
       [OpRequest (get_request []); OpClose; OpRequest upload_request]
       (plain_transport, [EvConnectorNew plain_connector])).2
    = [EvConnectorNew plain_connector] ++ new
    /\ Forall (fun s =>
                 session_kwargs s
                 = {| sk_connector := plain_connector;
                      sk_timeout := {| total := None; connect := None;
                                       sock_connect := None; sock_read := None |};
                      sk_auto_decompress := false;
                      sk_trust_env := true |})
              (sessions_of new).
Proof.
  exact (@sessions_use_construction_arguments plain_httpx quiet_engine
           (@default_config plain_httpx) [] [] plain_transport
           [EvConnectorNew plain_connector]
           [OpRequest (get_request []); OpClose; OpRequest upload_request] eq_refl).
Defined.


Lemma http1_and_socket_options_unused_witness :
  @__init__ plain_httpx quiet_engine
    (with_http1 (with_socket_options (@default_config plain_httpx) (Some "SO_KEEPALIVE"))
       false) [] []
  = @__init__ plain_httpx quiet_engine (@default_config plain_httpx) [] [].
Proof.
  exact (@http1_and_socket_options_unused plain_httpx quiet_engine _ _ [] [] []
           eq_refl eq_refl eq_refl eq_refl eq_refl eq_refl).
Defined.

Lemma construction_outcome_witness :
  conn_class plain_connector = TCPConnector
  /\ conn_kwargs plain_connector !! "force_close" = Some (PyBool false).
Proof.
  destruct (@construction_outcome plain_httpx quiet_engine
              (@default_config plain_httpx) [] [] plain_transport
              [EvConnectorNew plain_connector] eq_refl)
    as (Hclass & _ & _ & _ & Hforce).
  split; [exact Hclass|exact Hforce].
Defined.

Lemma connector_kwargs_keys_witness :
  exists kw,
    @connector_kwargs plain_httpx http_proxy_config = Ok kw
    /\ dom kw = base_keys ∪ {[ "proxy"; "proxy_headers" ]}.
Proof.
  eexists. split; [reflexivity|].
  exact (@connector_kwargs_keys plain_httpx http_proxy_config _ eq_refl).
Defined.

(** A [StopIteration] out of the engine does not leave the coroutine as
    it is. *)
Lemma stop_iteration_replaced :
  (@handle_async_request plain_httpx (constant_engine None (Fails stop_iteration))
     plain_transport (sync_request []) []).1.1
  = Raise (RuntimeError "coroutine raised StopIteration" stop_iteration)
  /\ __aiter__ [ReadChunk "partial body"; ReadRaises stop_iteration]
     = (["partial body"],
        Some (RuntimeError "async generator raised StopIteration" stop_iteration)).
Proof. split; reflexivity. Qed.
